(** * cdnstrip: the address-classification pipeline

    A shallow embedding of the program (package [main]: [main], [strip],
    [loadInput], [getCacheFilePath], [fatal]) together with the properties
    of the pipeline that its specification states.

    Go strings are byte strings: they are modelled as [string], whose
    characters ([ascii]) are the bytes.  The functions of Go's standard
    library that parse and print addresses ([net.ParseIP], [net.ParseCIDR],
    [IP.String], [url.Parse]) and the functions of package [cdn] are
    an interface ([GoLib]); all general theorems hold for every
    implementation of that interface, and [IPv4] below is one
    implementation, used to evaluate the program on concrete inputs. *)

From Stdlib Require Import String Ascii List ZArith NArith Bool Lia Arith.
From Stdlib Require Import Permutation.
From Stdlib Require Import DecimalString DecimalZ.
Import ListNotations.
Local Open Scope string_scope.

(** ** Package [strings] *)

Module strings.

Definition nl : ascii := "010"%char.

(** [strings.HasPrefix(s, prefix)] *)
Definition HasPrefix (s p : string) : bool := String.prefix p s.

(** [strings.Contains(s, substr)] *)
Fixpoint Contains (s sub : string) : bool :=
  String.prefix sub s
  || match s with
     | EmptyString => false
     | String _ s' => Contains s' sub
     end.

(** [strings.Split(s, sep)] for a separator of one byte, which is how
    [main] calls it ([sep = "\n"]).  [cur] is the piece being read. *)
Fixpoint splitFrom (sep : ascii) (cur : string) (s : string) : list string :=
  match s with
  | EmptyString => [cur]
  | String c s' =>
      if Ascii.eqb c sep then cur :: splitFrom sep "" s'
      else splitFrom sep (cur ++ String c "") s'
  end.

Definition Split (s : string) (sep : ascii) : list string :=
  splitFrom sep "" s.

(** [strings.TrimSpace]: strips, on both sides, the UTF-8 encodings of the
    code points for which [unicode.IsSpace] holds.  The ASCII ones are
    [\t \n \v \f \r] and the space; the others are U+0085, U+00A0
    (two bytes) and U+1680, U+2000..U+200A, U+2028, U+2029, U+202F,
    U+205F, U+3000 (three bytes). *)
Definition asciiSpace (c : ascii) : bool :=
  let n := N_of_ascii c in
  (((9 <=? n) && (n <=? 13)) || (n =? 32))%N.

Definition space2 (a b : ascii) : bool :=
  let '(a, b) := (N_of_ascii a, N_of_ascii b) in
  ((a =? 0xC2) && ((b =? 0x85) || (b =? 0xA0)))%N.

Definition space3 (a b c : ascii) : bool :=
  let '(a, b, c) := (N_of_ascii a, N_of_ascii b, N_of_ascii c) in
  (((a =? 0xE1) && (b =? 0x9A) && (c =? 0x80))
   || ((a =? 0xE2) && (b =? 0x80)
       && (((0x80 <=? c) && (c <=? 0x8A))
           || (c =? 0xA8) || (c =? 0xA9) || (c =? 0xAF)))
   || ((a =? 0xE2) && (b =? 0x81) && (c =? 0x9F))
   || ((a =? 0xE3) && (b =? 0x80) && (c =? 0x80)))%N.

(** Strips leading white space; with [back = true] the string is read
    from its end (it is given reversed), so the bytes of an encoding come
    last byte first. *)
Fixpoint trimFront (back : bool) (s : string) : string :=
  match s with
  | String a s1 =>
      if asciiSpace a then trimFront back s1 else
      match s1 with
      | String b s2 =>
          if (if back then space2 b a else space2 a b)
          then trimFront back s2 else
          match s2 with
          | String c s3 =>
              if (if back then space3 c b a else space3 a b c)
              then trimFront back s3 else s
          | EmptyString => s
          end
      | EmptyString => s
      end
  | EmptyString => s
  end.

Definition reverse (s : string) : string :=
  string_of_list_ascii (rev (list_ascii_of_string s)).

Definition TrimSpace (s : string) : string :=
  reverse (trimFront true (reverse (trimFront false s))).

End strings.

(** ** The library interface *)

(** [Error] values.  [EmptyCacheFile] is [errors.New("empty cache file")],
    [ErrInvalid] is [os.ErrInvalid]; every other error comes from the
    operating system or the network and carries its message. *)
Inductive Error : Type :=
| EmptyCacheFile
| ErrInvalid
| External (msg : string).

Class GoLib : Type := {
  (** a non-nil [net.IP] *)
  IPaddr : Type;
  (** the [*net.IPNet] of a successful [net.ParseCIDR] *)
  IPNet : Type;
  (** the [*url.URL] of a successful [url.Parse] *)
  URL : Type;
  (** [net.ParseIP]: [None] is the nil result *)
  ParseIP : string -> option IPaddr;
  (** [IP.String] *)
  IP_String : IPaddr -> string;
  (** [net.ParseCIDR]: [None] when [err != nil] *)
  ParseCIDR : string -> option IPNet;
  (** [IPNet.String] *)
  IPNet_String : IPNet -> string;
  (** [url.Parse]: [None] when [err != nil] *)
  url_Parse : string -> option URL;
  (** [URL.Hostname] *)
  Hostname : URL -> string;
  (** [cdn.Check] *)
  Check : list IPNet -> IPaddr -> bool;
  (** [cdn.ExpandCIDR]: [None] when [err != nil] *)
  ExpandCIDR : string -> option (list string)
}.

(** ** The task type *)

(** [type E struct { Raw string; IP string }] *)
Record E : Type := mkE { Raw : string; IP : string }.

(** ** [loadInput] *)

Section LoadInput.
Context {L : GoLib}.

(** Lines 185-189: a line that starts with "http" is replaced by the host
    name of its URL, when it parses as one. *)
Definition workingToken (line : string) : string :=
  if strings.HasPrefix line "http" then
    match url_Parse line with
    | Some u => Hostname u
    | None => line
    end
  else line.

(** Lines 190-203: the tasks sent for the working token [line]; [task] is
    the struct made at line 184. *)
Definition sendTasks (getIPv6 : bool) (task : E) (line : string) : list E :=
  if negb getIPv6 && strings.Contains line ":" then []
  else
    match ParseIP line with
    | Some ip => [ {| Raw := Raw task; IP := IP_String ip |} ]
    | None =>
        match ExpandCIDR line with
        | Some cidr => map (fun ip => {| Raw := Raw task; IP := ip |}) cidr
        | None => []
        end
    end.

(** The body of the scanning loop (lines 180-203) for one scanned line
    [text]: the tasks it sends to the channel, in order. *)
Definition loadLine (getIPv6 : bool) (text : string) : list E :=
  let line := strings.TrimSpace text in
  if String.eqb line "" then []
  else
    let task := {| Raw := line; IP := "" |} in
    let line := workingToken line in
    sendTasks getIPv6 task line.

(** The loop of [loadInput] over the lines that the scanner yields. *)
Definition loadInput (getIPv6 : bool) (lines : list string) : list E :=
  flat_map (loadLine getIPv6) lines.

End LoadInput.

(** ** The operating system *)

(** What a [*os.File] of this program refers to. *)
Inductive Handle : Type :=
| Stdout
| FileAt (path : string).

(** A [*os.File]; [None] is the nil pointer. *)
Definition File : Type := option Handle.

(** The calls that the program makes to the operating system and to the
    network, with what they returned where the program can tell. *)
Inductive Event : Type :=
| EvReadFile (path : string)
| EvLoadAll
| EvOpenFile (path : string)
| EvCreate (path : string)
| EvOpen (path : string)
| EvWrite (h : Handle) (s : string) (err : option Error)
| EvClose (h : Handle).

(** The calls made so far, oldest first. *)
Definition Trace : Type := list Event.

(** The result of a call that can fail with a message. *)
Inductive sys (A : Type) : Type :=
| Success (a : A)
| Failure (msg : string).
Arguments Success {A} a.
Arguments Failure {A} msg.

(** The environment of a run: how every external call answers, given the
    calls made before it. *)
Record Env {L : GoLib} : Type := {
  (** [user.Current()]: the home directory *)
  user_Current : sys string;
  (** [ioutil.ReadFile]: the bytes read and the error, if any *)
  ioutil_ReadFile : Trace -> string -> string * option string;
  (** [cdn.LoadAll()] *)
  cdn_LoadAll : Trace -> sys (list IPNet);
  (** [os.OpenFile(path, O_TRUNC|O_RDWR|O_CREATE, 0664)] *)
  os_OpenFile : Trace -> string -> option string;
  (** [os.Create] *)
  os_Create : Trace -> string -> option string;
  (** [os.Open] followed by scanning: the lines that the scanner yields *)
  os_Open : Trace -> string -> sys (list string);
  (** the lines that the scanner yields on standard input *)
  os_Stdin : list string;
  (** a write system call on an open file *)
  sys_write : Trace -> Handle -> string -> option string
}.
Arguments Env : clear implicits.
Arguments Env {L}.

(** [WriteString] of a [*os.File]: on a nil file it returns [ErrInvalid] without
    calling the system. *)
Definition WriteString {L : GoLib} (env : Env) (file : File) (s : string)
    (tr : Trace) : Trace * option Error :=
  match file with
  | None => (tr, Some ErrInvalid)
  | Some h =>
      let err := option_map External (sys_write env tr h s) in
      ((tr ++ [EvWrite h s err])%list, err)
  end.

Definition Handle_eqb (a b : Handle) : bool :=
  match a, b with
  | Stdout, Stdout => true
  | FileAt p, FileAt q => String.eqb p q
  | _, _ => false
  end.

(** The bytes that the successful writes of a trace sent to [h]. *)
Fixpoint written (h : Handle) (tr : Trace) : string :=
  match tr with
  | [] => ""
  | EvWrite h' s None :: tr' =>
      if Handle_eqb h h' then s ++ written h tr' else written h tr'
  | _ :: tr' => written h tr'
  end.

(** ** Go's [int] *)

(** The counters are of type [int]: signed and, on the 64-bit platforms,
    64 bits wide.  [x++] wraps around. *)
Definition wrapInt (z : Z) : Z := ((z + 2 ^ 63) mod 2 ^ 64 - 2 ^ 63)%Z.
Definition incr (z : Z) : Z := wrapInt (z + 1).

(** ** [strip] *)

(** The global variables that the workers share, and the trace. *)
Record Shared : Type := mkShared {
  validIP : Z;
  invalidIP : Z;
  cdnIP : Z;
  trace : Trace
}.

(** The outcome of a task, in the words of the specification. *)
Inductive Verdict : Type := Invalid | MatchesRange | NoMatch.

Section Strip.
Context {L : GoLib}.
Variable env : Env.
(** the global [cdnRanges], which no worker changes *)
Variable cdnRanges : list IPNet.
Variable file : File.
Variable outputRaw : bool.

(** The body of the loop of [strip] (lines 123-143) for one task.  The
    parsing and the range check read nothing that changes; the rest
    runs under the mutex. *)
Definition stripTask (task : E) (g : Shared) : Shared :=
  match ParseIP (IP task) with
  | Some i =>
      if Check cdnRanges i then
        {| validIP := validIP g; invalidIP := invalidIP g;
           cdnIP := incr (cdnIP g); trace := trace g |}
      else
        let valid := incr (validIP g) in
        let '(tr, _) :=
          if outputRaw
          then WriteString env file (Raw task ++ String strings.nl "") (trace g)
          else WriteString env file (IP_String i ++ String strings.nl "") (trace g)
        in
        {| validIP := valid; invalidIP := invalidIP g;
           cdnIP := cdnIP g; trace := tr |}
  | None =>
      {| validIP := validIP g; invalidIP := incr (invalidIP g);
         cdnIP := cdnIP g; trace := trace g |}
  end.
End Strip.

(** ** The worker pool *)

(** A worker of the pool: blocked on the channel, holding a task that it
    received, or returned from [strip] after the channel was closed. *)
Inductive Worker : Type :=
| Waiting
| Holding (task : E)
| Exited.

(** The state of the pipeline: the tasks that [loadInput] has still to
    send, the buffer of the channel, whether the channel is closed, the
    workers, and the shared variables. *)
Record Pipe : Type := mkPipe {
  pending : list E;
  queue : list E;
  closed : bool;
  workers : list Worker;
  shared : Shared
}.

Inductive Label : Type :=
| Send (t : E)
| Close
| Recv (w : nat) (t : E)
| Commit (w : nat) (t : E)
| Exit (w : nat).

Section Pipeline.
Context {L : GoLib}.
Variable env : Env.
Variable cdnRanges : list IPNet.
Variable file : File.
Variable outputRaw : bool.
(** the flag [-t]: the capacity of the channel and the number of workers *)
Variable thread : nat.

(** One step of the pipeline.  [Send]: [inputChan <- task], which blocks
    while the buffer is full.  [Close]: [close(channel)] after
    [loadInput] returned.  [Recv]: a worker takes the oldest task.
    [Commit]: it runs the body of its loop.  [Exit]: the [range] loop of
    a worker ends on the closed, drained channel. *)
Inductive step : Pipe -> Label -> Pipe -> Prop :=
| step_send t rest q ws g :
    length q < thread ->
    step (mkPipe (t :: rest) q false ws g) (Send t)
         (mkPipe rest (q ++ [t]) false ws g)
| step_close q ws g :
    step (mkPipe [] q false ws g) Close (mkPipe [] q true ws g)
| step_recv p t q c ws1 ws2 g :
    step (mkPipe p (t :: q) c (ws1 ++ Waiting :: ws2) g)
         (Recv (length ws1) t)
         (mkPipe p q c (ws1 ++ Holding t :: ws2) g)
| step_commit p q c ws1 t ws2 g :
    step (mkPipe p q c (ws1 ++ Holding t :: ws2) g)
         (Commit (length ws1) t)
         (mkPipe p q c (ws1 ++ Waiting :: ws2)
                 (stripTask env cdnRanges file outputRaw t g))
| step_exit ws1 ws2 g :
    step (mkPipe [] [] true (ws1 ++ Waiting :: ws2) g)
         (Exit (length ws1))
         (mkPipe [] [] true (ws1 ++ Exited :: ws2) g).

Inductive run : Pipe -> list Label -> Pipe -> Prop :=
| run_nil p : run p [] p
| run_cons p l p' ls p'' :
    step p l p' -> run p' ls p'' -> run p (l :: ls) p''.

(** The pipeline when [loadInput] starts: [thread] workers wait on the
    empty channel. *)
Definition initPipe (tasks : list E) (g : Shared) : Pipe :=
  mkPipe tasks [] false (repeat Waiting thread) g.

(** [wg.Wait()] returns: the input is sent, the channel closed, and
    every worker has returned. *)
Definition completed (p : Pipe) : Prop :=
  pending p = [] /\ closed p = true /\ Forall (eq Exited) (workers p).

(** The tasks in order, one worker at a time. *)
Definition stripAll (tasks : list E) (g : Shared) : Shared :=
  fold_left (fun g t => stripTask env cdnRanges file outputRaw t g) tasks g.

End Pipeline.

(** ** [main] *)

(** The command line. *)
Record Flags : Type := mkFlags {
  thread_flag : Z;
  input : string;
  out : string;
  outputRaw_flag : bool;
  skipCache : bool;
  getIPv6 : bool
}.

(** How a part of [main] ends: it goes on with a value, [fatal] ends the
    process on an error, the usage is printed and the process ends, or
    the Go runtime panics. *)
Inductive Outcome (A : Type) : Type :=
| Return (a : A)
| Fatal (e : Error)
| Usage
| Panic.
Arguments Return {A} a.
Arguments Fatal {A} e.
Arguments Usage {A}.
Arguments Panic {A}.

Definition M (A : Type) : Type := Trace -> Outcome A * Trace.

Definition ret {A} (a : A) : M A := fun tr => (Return a, tr).

Definition bind {A B} (m : M A) (k : A -> M B) : M B :=
  fun tr =>
    match m tr with
    | (Return a, tr') => k a tr'
    | (Fatal e, tr') => (Fatal e, tr')
    | (Usage, tr') => (Usage, tr')
    | (Panic, tr') => (Panic, tr')
    end.

Declare Scope go_scope.
Delimit Scope go_scope with go.
Notation "x <- m ;; k" := (bind m (fun x => k))
  (at level 61, m at next level, right associativity) : go_scope.
Notation "m ;;; k" := (bind m (fun _ => k))
  (at level 61, right associativity) : go_scope.

(** A call to the environment: its answer, and the call on the trace. *)
Definition call {A} (answer : Trace -> A) (e : Event) : M A :=
  fun tr => (Return (answer tr), (tr ++ [e])%list).

(** [fatal(err)] *)
Definition fatal (err : option Error) : M unit :=
  match err with
  | Some e => fun tr => (Fatal e, tr)
  | None => ret tt
  end.

Definition isNil {A} (o : option A) : bool :=
  match o with None => true | Some _ => false end.

(** What [main] hands to the pipeline. *)
Record Setup {L : GoLib} : Type := mkSetup {
  cdnRanges : list IPNet;
  outFile : File;
  lines : list string
}.

Section Main.
Context {L : GoLib}.
Variable env : Env.
Local Open Scope go_scope.

(** [getCacheFilePath] *)
Definition getCacheFilePath : M string :=
  match user_Current env with
  | Failure msg => fatal (Some (External msg)) ;;; ret ""
  | Success HomeDir => ret (HomeDir ++ "/.config/cdnstrip.cache")
  end.

(** Lines 73-77: one turn of the loop over the lines of the cache. *)
Definition appendRange (cdnRanges : list IPNet) (i : string) : list IPNet :=
  match ParseCIDR i with
  | Some cidr => (cdnRanges ++ [cidr])%list
  | None => cdnRanges
  end.

(** Lines 68-78: the ranges of the cache contents [cahceFile], appended
    to the global [cdnRanges]. *)
Definition readCache (cahceFile : string) (cdnRanges : list IPNet)
    : M (list IPNet) :=
  let c := strings.Split cahceFile strings.nl in
  (if Nat.eqb (length c) 0 then fatal (Some EmptyCacheFile) else ret tt) ;;;
  ret (fold_left appendRange c cdnRanges).

Definition write (h : Handle) (s : string) : M unit :=
  fun tr => (Return tt, fst (WriteString env (Some h) s tr)).

(** Lines 89-94: the loop that writes the new cache file, from index [i]. *)
Fixpoint writeCache (h : Handle) (i len : nat) (rs : list IPNet) : M unit :=
  match rs with
  | [] => ret tt
  | r :: rs' =>
      write h (IPNet_String r) ;;;
      (if negb (Nat.eqb i (len - 1)) then write h (String strings.nl "")
       else ret tt) ;;;
      writeCache h (S i) len rs'
  end.

(** Lines 86-95: the new cache file. *)
Definition createCache (cacheFilePath : string) (cdnRanges : list IPNet)
    : M unit :=
  err <- call (fun tr => os_OpenFile env tr cacheFilePath)
              (EvOpenFile cacheFilePath) ;;
  fatal (option_map External err) ;;;
  writeCache (FileAt cacheFilePath) 0 (length cdnRanges) cdnRanges ;;;
  call (fun _ => tt) (EvClose (FileAt cacheFilePath)).

(** Lines 65-96. *)
Definition loadRanges (cacheFilePath : string) (skipCache : bool)
    : M (list IPNet) :=
  r <- call (fun tr => ioutil_ReadFile env tr cacheFilePath)
            (EvReadFile cacheFilePath) ;;
  let '(cahceFile, err) := r in
  if isNil err || skipCache then
    readCache cahceFile []
  else
    r <- call (cdn_LoadAll env) EvLoadAll ;;
    match r with
    | Failure msg => fatal (Some (External msg)) ;;; ret []
    | Success ranges =>
        createCache cacheFilePath ranges ;;;
        ret ranges
    end.

(** Lines 97-104.  In the [else] block, [outFile, err := os.Create(..)]
    declares two new variables: the file that is created is held by the
    [outFile] of that block, and the [outFile] declared at line 97, which
    is the one given to the workers, stays nil. *)
Definition openOutput (out : string) : M File :=
  let outFile : File := None in
  if String.eqb out "-" then
    ret (Some Stdout)
  else
    err <- call (fun tr => os_Create env tr out) (EvCreate out) ;;
    fatal (option_map External err) ;;;
    ret outFile.

(** Lines 166-177: the scanner of [loadInput]. *)
Definition openInput (param : string) : M (list string) :=
  if String.eqb param "-" then ret (os_Stdin env)
  else
    r <- call (fun tr => os_Open env tr param) (EvOpen param) ;;
    match r with
    | Failure msg => fatal (Some (External msg)) ;;; ret []
    | Success ls => ret ls
    end.

(** [main] up to the first task: lines 43-112. *)
Definition startup (f : Flags) : M Setup :=
  cacheFilePath <- getCacheFilePath ;;
  (if String.eqb (input f) "" then (fun tr => (Usage, tr)) else ret tt) ;;;
  ranges <- loadRanges cacheFilePath (skipCache f) ;;
  outFile <- openOutput (out f) ;;
  (* make(chan E, thread): a negative size panics *)
  (if (thread_flag f <? 0)%Z then (fun tr => (Panic, tr)) else ret tt) ;;;
  lines <- openInput (input f) ;;
  ret {| cdnRanges := ranges; outFile := outFile; lines := lines |}.

(** The shared variables when the workers start. *)
Definition initShared (tr : Trace) : Shared :=
  {| validIP := 0; invalidIP := 0; cdnIP := 0; trace := tr |}.

(** The return of [main] runs the [outFile.Close()] that line 103
    deferred, when the else block was entered. *)
Definition finish (f : Flags) (g : Shared) : Shared :=
  if String.eqb (out f) "-" then g
  else {| validIP := validIP g; invalidIP := invalidIP g; cdnIP := cdnIP g;
          trace := (trace g ++ [EvClose (FileAt (out f))])%list |}.

(** [main] returns with the shared variables [g]: the startup succeeded,
    the pipeline ran until [wg.Wait()] returned, and [main] returned. *)
Definition mainReturns (f : Flags) (g : Shared) : Prop :=
  exists su tr ls p,
    startup f [] = (Return su, tr) /\
    run env (cdnRanges su) (outFile su) (outputRaw_flag f)
        (Z.to_nat (thread_flag f))
        (initPipe (Z.to_nat (thread_flag f))
                  (loadInput (getIPv6 f) (lines su)) (initShared tr))
        ls p /\
    completed p /\
    g = finish f (shared p).

End Main.

(** ** An implementation of the interface: IPv4 *)

(** Dotted-quad addresses and their blocks, as Go reads and prints them,
    and URLs of the shape [scheme://host[:port][/path]].  The general
    theorems below do not depend on this module; it is what the program
    is evaluated with on concrete inputs. *)
Module IPv4.
Local Open Scope N_scope.

Definition digit (c : ascii) : option N :=
  let n := N_of_ascii c in
  if (48 <=? n) && (n <=? 57) then Some (n - 48) else None.

(** The value of a string of decimal digits. *)
Fixpoint dtoi (acc : N) (s : string) : option N :=
  match s with
  | EmptyString => Some acc
  | String c s' =>
      match digit c with
      | Some d => dtoi (10 * acc + d) s'
      | None => None
      end
  end.

(** A field of an address: one to three digits, no leading zero, at
    most 255. *)
Definition parseField (s : string) : option N :=
  match s with
  | EmptyString => None
  | String c rest =>
      if (3 <? N.of_nat (String.length s))
         || (Ascii.eqb c "0" && negb (String.eqb rest ""))
      then None
      else
        match dtoi 0 s with
        | Some n => if n <=? 255 then Some n else None
        | None => None
        end
  end.

(** An address is its 32-bit value. *)
Definition addr : Type := N.
(** A block: the network address and the length of the prefix. *)
Definition block : Type := (N * N)%type.

Definition ParseIP (s : string) : option addr :=
  match map parseField (strings.Split s ".") with
  | [Some a; Some b; Some c; Some d] =>
      Some (a * 2 ^ 24 + b * 2 ^ 16 + c * 2 ^ 8 + d)
  | _ => None
  end.

Definition digitChar (n : N) : ascii := ascii_of_N (48 + n).

(** Decimal printing, of numbers below 1000. *)
Definition itoa (n : N) : string :=
  if n <? 10 then String (digitChar n) ""
  else if n <? 100 then
    String (digitChar (n / 10)) (String (digitChar (n mod 10)) "")
  else
    String (digitChar (n / 100))
      (String (digitChar (n / 10 mod 10)) (String (digitChar (n mod 10)) "")).

Definition IP_String (a : addr) : string :=
  (itoa (a / 2 ^ 24) ++ "." ++ itoa (a / 2 ^ 16 mod 256) ++ "."
   ++ itoa (a / 2 ^ 8 mod 256) ++ "." ++ itoa (a mod 256))%string.

(** The bits of [a] that a prefix of length [bits] fixes. *)
Definition prefixOf (bits : N) (a : addr) : N := a / 2 ^ (32 - bits).

Definition ParseCIDR (s : string) : option block :=
  match strings.Split s "/" with
  | [a; mask] =>
      match ParseIP a, mask, dtoi 0 mask with
      | Some ip, String _ _, Some n =>
          if n <=? 32 then Some (prefixOf n ip * 2 ^ (32 - n), n) else None
      | _, _, _ => None
      end
  | _ => None
  end.

Definition IPNet_String (b : block) : string :=
  (IP_String (fst b) ++ "/" ++ itoa (snd b))%string.

(** Modelled from the spec: [cdn.Check], which is not among the sources.
    [contains(address)] is true iff the address is inside at least one
    contained range. *)
Definition Check (ranges : list block) (a : addr) : bool :=
  existsb (fun b => prefixOf (snd b) a =? prefixOf (snd b) (fst b)) ranges.

(** Modelled from the spec: [cdn.ExpandCIDR], which is not among the
    sources.  A block is expanded to every address it contains, the
    network and broadcast addresses included. *)
Definition ExpandCIDR (s : string) : option (list string) :=
  match ParseCIDR s with
  | Some (net, bits) =>
      Some (map (fun k => IP_String (net + N.of_nat k))
                (seq 0 (N.to_nat (2 ^ (32 - bits)))))
  | None => None
  end.

(** A URL is its authority. *)
Definition url : Type := string.

Definition isControl (c : ascii) : bool :=
  let n := N_of_ascii c in (n <? 32) || (n =? 127).

Fixpoint anyByte (f : ascii -> bool) (s : string) : bool :=
  match s with
  | EmptyString => false
  | String c s' => f c || anyByte f s'
  end.

(** The bytes of [s] before the first one that satisfies [f]. *)
Fixpoint upTo (f : ascii -> bool) (s : string) : string :=
  match s with
  | EmptyString => EmptyString
  | String c s' => if f c then EmptyString else String c (upTo f s')
  end.

Definition isDelim (c : ascii) : bool :=
  Ascii.eqb c "/" || Ascii.eqb c "?" || Ascii.eqb c "#".

(** The text after [scheme://], if [s] has that shape. *)
Definition afterScheme (s : string) : option string :=
  if String.prefix "http://" s then Some (substring 7 (String.length s - 7) s)
  else if String.prefix "https://" s
       then Some (substring 8 (String.length s - 8) s)
       else None.

(** [url.Parse] fails on a control byte; a text without [scheme://] has
    no authority. *)
Definition url_Parse (s : string) : option url :=
  if anyByte isControl s then None
  else
    match afterScheme s with
    | Some rest => Some (upTo isDelim rest)
    | None => Some ""%string
    end.

Definition isDigit (c : ascii) : bool :=
  match digit c with Some _ => true | None => false end.

(** [URL.Hostname]: the authority without the port that follows its last
    colon, and without the square brackets of an IPv6 literal. *)
Definition Hostname (u : url) : string :=
  let port := upTo (fun c => Ascii.eqb c ":") (strings.reverse u) in
  let host :=
    if strings.Contains u ":" && negb (anyByte (fun c => negb (isDigit c)) port)
    then substring 0 (String.length u - String.length port - 1) u
    else u in
  if String.prefix "[" host && String.prefix "]" (strings.reverse host)
  then substring 1 (String.length host - 2) host
  else host.

End IPv4.

#[export] Instance ipv4 : GoLib := {|
  IPaddr := IPv4.addr;
  IPNet := IPv4.block;
  URL := IPv4.url;
  ParseIP := IPv4.ParseIP;
  IP_String := IPv4.IP_String;
  ParseCIDR := IPv4.ParseCIDR;
  IPNet_String := IPv4.IPNet_String;
  url_Parse := IPv4.url_Parse;
  Hostname := IPv4.Hostname;
  Check := IPv4.Check;
  ExpandCIDR := IPv4.ExpandCIDR
|}.

(** ** Sample runs *)

(** An environment for the IPv4 implementation: the home directory is
    [/home/u], the cache file reads as [cache], the network answers with
    the block 203.0.113.0/24, files can be created, standard input yields
    [stdin], and every write fails when [broken] is set. *)
Definition sampleEnv (cache : string * option string) (stdin : list string)
    (broken : bool) : Env := {|
  user_Current := Success "/home/u";
  ioutil_ReadFile := fun _ _ => cache;
  cdn_LoadAll := fun _ => Success [(3405803776%N, 24%N)];
  os_OpenFile := fun _ _ => None;
  os_Create := fun _ _ => None;
  os_Open := fun _ _ => Failure "no such file or directory";
  os_Stdin := stdin;
  sys_write := fun _ _ _ => if broken then Some "no space left on device"
                            else None
|}.

(** The flags of a command line that gives [-o out] and, with [skip], [-s];
    the others have their defaults. *)
Definition sampleFlags (out : string) (skip : bool) : Flags := {|
  thread_flag := 1;
  input := "-";
  out := out;
  outputRaw_flag := false;
  skipCache := skip;
  getIPv6 := false
|}.

(** The Range Set of the block 203.0.113.0/24. *)
Definition sampleRanges : list (@IPNet ipv4) := [(3405803776%N, 24%N)].

Definition sampleCachePath : string := "/home/u/.config/cdnstrip.cache".

Definition newline : string := String strings.nl "".

(** ** The properties that the specification uses *)

Section Words.
Context {L : GoLib}.
Variable cdnRanges : list IPNet.

(** The verdict on a task: the branch that [strip] takes. *)
Definition verdict (task : E) : Verdict :=
  match ParseIP (IP task) with
  | Some i => if Check cdnRanges i then MatchesRange else NoMatch
  | None => Invalid
  end.

(** The line of the Sink for a task: none unless the verdict is
    [NoMatch]; then the address string in canonical mode and the original
    input line in raw mode, ended by a newline. *)
Definition sinkLine (outputRaw : bool) (task : E) : option string :=
  match ParseIP (IP task) with
  | Some i =>
      if Check cdnRanges i then None
      else Some ((if outputRaw then Raw task else IP_String i)
                 ++ String strings.nl "")
  | None => None
  end.

(** The ranges of the well-formed literals among [lits], in order. *)
Definition rangesOf (lits : list string) : list IPNet :=
  flat_map (fun lit => match ParseCIDR lit with
                       | Some r => [r]
                       | None => []
                       end) lits.

(** The lines that the tasks send to the file [h]. *)
Definition linesOf (outputRaw : bool) (h : Handle) (ts : list E) : list (Handle * string) :=
  flat_map (fun t => match sinkLine outputRaw t with
                     | Some line => [(h, line)]
                     | None => []
                     end) ts.
End Words.

(** The write calls of a trace: the file and the text of each. *)
Definition writesOf (tr : Trace) : list (Handle * string) :=
  flat_map (fun e => match e with
                     | EvWrite h s _ => [(h, s)]
                     | _ => []
                     end) tr.

(** The tasks that a run committed, in the order of the commits. *)
Definition tasksOf (ls : list Label) : list E :=
  flat_map (fun l => match l with
                     | Commit _ t => [t]
                     | _ => []
                     end) ls.

(** The tasks that the workers hold. *)
Definition holdingOf (ws : list Worker) : list E :=
  flat_map (fun w => match w with
                     | Holding t => [t]
                     | _ => []
                     end) ws.



(** The sum of the counters, and that none is negative. *)
Definition total (g : Shared) : Z := (validIP g + invalidIP g + cdnIP g)%Z.

Definition nonneg (g : Shared) : Prop :=
  (0 <= validIP g /\ 0 <= invalidIP g /\ 0 <= cdnIP g)%Z.

(** The tasks that a state has still to commit. *)
Definition todo (p : Pipe) : list E :=
  holdingOf (workers p) ++ queue p ++ pending p.

(** What holds of every state that the pipeline reaches. *)
Definition wf (thread : nat) (p : Pipe) : Prop :=
  length (workers p) = thread
  /\ length (queue p) <= thread
  /\ (closed p = true -> pending p = [])
  /\ (In Exited (workers p) -> closed p = true /\ queue p = []).

(** [m] never ends on the error "empty cache file". *)
Definition clean {A : Type} (m : M A) : Prop :=
  forall tr, fst (m tr) <> Fatal EmptyCacheFile.

(** [m] keeps the calls already on the trace. *)
Definition keeps {A : Type} (m : M A) : Prop :=
  forall tr e, In e tr -> In e (snd (m tr)).


(** ** [updateSpinnerStats] *)

(** [strconv.Itoa] *)
Definition Itoa (i : Z) : string := NilEmpty.string_of_int (Z.to_int i).

(** The suffix that [updateSpinnerStats] gives to the spinner (line 153). *)
Definition updateSpinnerStats (g : Shared) : string :=
  "  [ VALID: " ++ Itoa (validIP g) ++ " | INVALID: " ++ Itoa (invalidIP g)
  ++ " | CDN: " ++ Itoa (cdnIP g) ++ " ]".

(** ** The older program, [src/main.go] *)

(** The command line of the older [main]: [-t], [-i], [-o] (which
    defaults to [filtered.txt]) and [-s]. *)
Record LegacyFlags : Type := mkLegacyFlags {
  legacy_thread : Z;
  legacy_input : string;
  legacy_out : string;
  legacy_skipCache : bool
}.

Module Legacy.
Section Legacy.
Context {L : GoLib}.
Variable env : Env.
Local Open Scope go_scope.

(** The body of the scanning loop of [loadInput] (lines 164-174): the
    strings that a scanned line sends to the channel. *)
Definition loadLine (text : string) : list string :=
  let line := strings.TrimSpace text in
  if String.eqb line "" then []
  else
    match ParseIP line with
    | Some ip => [IP_String ip]
    | None =>
        match ExpandCIDR line with
        | Some cidr => cidr
        | None => []
        end
    end.

Definition loadInput (lines : list string) : list string :=
  flat_map loadLine lines.

(** The body of the loop of [strip] (lines 111-127). *)
Definition strip (cdnRanges : list IPNet) (file : File) (ip : string)
    (g : Shared) : Shared :=
  match ParseIP ip with
  | Some i =>
      if Check cdnRanges i then
        {| validIP := validIP g; invalidIP := invalidIP g;
           cdnIP := incr (cdnIP g); trace := trace g |}
      else
        let valid := incr (validIP g) in
        let '(tr, _) :=
          WriteString env file (IP_String i ++ String strings.nl "") (trace g)
        in
        {| validIP := valid; invalidIP := invalidIP g;
           cdnIP := cdnIP g; trace := tr |}
  | None =>
      {| validIP := validIP g; invalidIP := incr (invalidIP g);
         cdnIP := cdnIP g; trace := trace g |}
  end.

(** Lines 90-92: [outFile, err := os.Create(..)] in the block of the
    function itself. *)
Definition openOutput (out : string) : M File :=
  err <- call (fun tr => os_Create env tr out) (EvCreate out) ;;
  fatal (option_map External err) ;;;
  ret (Some (FileAt out)).

(** [main] up to the first string sent: lines 37-100.  The channel is
    [make(chan string, thread*2)], which panics on a negative size. *)
Definition startup (f : LegacyFlags) : M Setup :=
  cacheFilePath <- getCacheFilePath env ;;
  (if String.eqb (legacy_input f) "" then (fun tr => (Usage, tr))
   else ret tt) ;;;
  ranges <- loadRanges env cacheFilePath (legacy_skipCache f) ;;
  outFile <- openOutput (legacy_out f) ;;
  (if (wrapInt (legacy_thread f * 2) <? 0)%Z then (fun tr => (Panic, tr))
   else ret tt) ;;;
  lines <- openInput env (legacy_input f) ;;
  ret {| cdnRanges := ranges; outFile := outFile; lines := lines |}.

End Legacy.
End Legacy.

(** ** More words for the properties *)

Definition Verdict_eqb (a b : Verdict) : bool :=
  match a, b with
  | Invalid, Invalid | MatchesRange, MatchesRange | NoMatch, NoMatch => true
  | _, _ => false
  end.

(** The number of tasks with the verdict [v]. *)
Definition countVerdict {L : GoLib} (cdnRanges : list IPNet) (v : Verdict)
    (tasks : list E) : nat :=
  length (filter (fun t => Verdict_eqb (verdict cdnRanges t) v) tasks).

(** The strings of [l], with a newline between two of them. *)
Fixpoint joinLines (l : list string) : string :=
  match l with
  | [] => ""
  | [s] => s
  | s :: rest => s ++ newline ++ joinLines rest
  end.

(** Every write of the environment succeeds. *)
Definition reliable {L : GoLib} (env : Env) : Prop :=
  forall tr h s, sys_write env tr h s = None.

(** [m] adds to the trace only calls that satisfy [P]. *)
Definition emits {A : Type} (P : Event -> Prop) (m : M A) : Prop :=
  forall tr, exists more, snd (m tr) = (tr ++ more)%list /\ Forall P more.

(** The calls that are neither [os.Open] nor [os.Create]. *)
Definition beforeOutput (e : Event) : Prop :=
  match e with
  | EvOpen _ | EvCreate _ => False
  | _ => True
  end.

(** The flags [f] with [-s] set to [skip]. *)
Definition withSkip (f : Flags) (skip : bool) : Flags :=
  {| thread_flag := thread_flag f; input := input f; out := out f;
     outputRaw_flag := outputRaw_flag f; skipCache := skip;
     getIPv6 := getIPv6 f |}.

(** * Theorems *)

(** ** Strings *)

Lemma append_empty_r (s : string) : s ++ "" = s.
Proof. induction s as [|c s IH]; simpl; [reflexivity | now rewrite IH]. Qed.

Lemma append_assoc (a b c : string) : (a ++ b) ++ c = a ++ (b ++ c).
Proof. induction a as [|x a IH]; simpl; [reflexivity | now rewrite IH]. Qed.

Lemma prefix_byte (sep c : ascii) (s : string) :
  String.prefix (String sep "") (String c s) = Ascii.eqb c sep.
Proof.
  simpl. destruct (ascii_dec sep c) as [->|Hne].
  - rewrite Ascii.eqb_refl. now destruct s.
  - symmetry. apply Ascii.eqb_neq. congruence.
Qed.

Lemma Contains_cons (sep c : ascii) (s : string) :
  strings.Contains (String c s) (String sep "")
  = Ascii.eqb c sep || strings.Contains s (String sep "").
Proof.
  change (strings.Contains (String c s) (String sep ""))
    with (String.prefix (String sep "") (String c s)
          || strings.Contains s (String sep "")).
  now rewrite prefix_byte.
Qed.

Lemma splitFrom_nonempty (sep : ascii) (s cur : string) :
  1 <= length (strings.splitFrom sep cur s).
Proof.
  revert cur. induction s as [|c s IH]; intros cur; simpl.
  - lia.
  - destruct (Ascii.eqb c sep); simpl; [lia | apply IH].
Qed.

Lemma splitFrom_none (sep : ascii) (s cur : string) :
  strings.Contains s (String sep "") = false ->
  strings.splitFrom sep cur s = [cur ++ s].
Proof.
  revert cur. induction s as [|c s IH]; intros cur H.
  - simpl. now rewrite append_empty_r.
  - rewrite Contains_cons in H. apply orb_false_iff in H as [Hc Hs].
    simpl. rewrite Hc, (IH _ Hs), append_assoc. reflexivity.
Qed.

Lemma splitFrom_app (sep : ascii) (a b cur : string) :
  strings.Contains a (String sep "") = false ->
  strings.splitFrom sep cur (a ++ String sep b)
  = (cur ++ a) :: strings.splitFrom sep "" b.
Proof.
  revert cur. induction a as [|c a IH]; intros cur H.
  - simpl. now rewrite Ascii.eqb_refl, append_empty_r.
  - rewrite Contains_cons in H. apply orb_false_iff in H as [Hc Ha].
    simpl. rewrite Hc, (IH _ Ha), append_assoc. reflexivity.
Qed.

(** ** The Input Normalizer *)

Lemma loadLine_nonempty {L : GoLib} (getIPv6 : bool) (text : string) :
  strings.TrimSpace text <> "" ->
  loadLine getIPv6 text
  = sendTasks getIPv6 {| Raw := strings.TrimSpace text; IP := "" |}
                      (workingToken (strings.TrimSpace text)).
Proof.
  intros Hne. unfold loadLine.
  destruct (String.eqb_spec (strings.TrimSpace text) ""); [contradiction|].
  reflexivity.
Qed.

(** C5.  A scanned line that is not empty once trimmed, and whose working
    token (the host of the URL when the line is one) passes the IPv6 filter
    and parses as a literal address, sends exactly one task: its [IP] is
    the canonical string of that address and its [Raw] is the trimmed
    line itself, not the extracted host. *)
Theorem literal_address_one_task {L : GoLib}
    (getIPv6 : bool) (text : string) (ip : IPaddr) :
  strings.TrimSpace text <> "" ->
  getIPv6 = true
  \/ strings.Contains (workingToken (strings.TrimSpace text)) ":" = false ->
  ParseIP (workingToken (strings.TrimSpace text)) = Some ip ->
  loadLine getIPv6 text
  = [ {| Raw := strings.TrimSpace text; IP := IP_String ip |} ].
Proof.
  intros Hne Hfilter Hip.
  rewrite (loadLine_nonempty _ _ Hne). unfold sendTasks. rewrite Hip.
  destruct Hfilter as [-> | ->]; simpl.
  - reflexivity.
  - now rewrite andb_false_r.
Qed.

Lemma literal_address_one_task_witness :
  loadLine false "  http://10.0.0.1:8080/index.html  "
  = [ {| Raw := "http://10.0.0.1:8080/index.html"; IP := "10.0.0.1" |} ].
Proof.
  apply (@literal_address_one_task ipv4 false
           "  http://10.0.0.1:8080/index.html  " 167772161%N).
  - discriminate.
  - right. reflexivity.
  - reflexivity.
Defined.

(** C6.  With IPv6 checking disabled, a line whose working token contains
    a colon sends no task; the line [2001:db8::1] is such a line, whatever
    the library makes of it. *)
Theorem ipv6_line_sends_nothing {L : GoLib} :
  (forall text,
      strings.Contains (workingToken (strings.TrimSpace text)) ":" = true ->
      loadLine false text = [])
  /\ loadLine false "2001:db8::1" = []
  /\ loadInput false ["2001:db8::1"] = [].
Proof.
  split; [|split; reflexivity].
  intros text Hcolon. unfold loadLine.
  destruct (String.eqb (strings.TrimSpace text) ""); [reflexivity|].
  unfold sendTasks. now rewrite Hcolon.
Qed.

Lemma ipv6_line_sends_nothing_witness :
  strings.Contains (workingToken (strings.TrimSpace " http://[fe80::1]/ ")) ":"
  = true
  /\ loadLine false " http://[fe80::1]/ " = [].
Proof.
  split.
  - reflexivity.
  - apply (proj1 (@ipv6_line_sends_nothing ipv4)). reflexivity.
Defined.

(** C7.  For a line that starts with [http], the working token is the host
    name of its URL, and the tasks of the line are those of that host name;
    when the line does not parse as a URL, the working token is the
    line as it is. *)
Theorem http_line_uses_host {L : GoLib} (getIPv6 : bool) (text : string) :
  strings.HasPrefix (strings.TrimSpace text) "http" = true ->
  let line := strings.TrimSpace text in
  let task := {| Raw := line; IP := "" |} in
  (forall u, url_Parse line = Some u ->
             workingToken line = Hostname u
             /\ loadLine getIPv6 text = sendTasks getIPv6 task (Hostname u))
  /\ (url_Parse line = None ->
      workingToken line = line
      /\ loadLine getIPv6 text = sendTasks getIPv6 task line).
Proof.
  intros Hhttp line task. subst line task.
  assert (Hne : strings.TrimSpace text <> "")
    by (intros Hempty; rewrite Hempty in Hhttp; discriminate).
  rewrite (loadLine_nonempty _ _ Hne). unfold workingToken. rewrite Hhttp.
  split.
  - intros u ->. split; reflexivity.
  - intros ->. split; reflexivity.
Qed.

Lemma http_line_uses_host_witness :
  workingToken "http://example.com/path" = "example.com"
  /\ loadLine false "http://example.com/path" = []
  /\ workingToken "http://203.0.113.5/" = "203.0.113.5"
  /\ loadLine false "http://203.0.113.5/"
     = [ {| Raw := "http://203.0.113.5/"; IP := "203.0.113.5" |} ].
Proof.
  assert (H1 := @http_line_uses_host ipv4 false "http://example.com/path").
  assert (H2 := @http_line_uses_host ipv4 false "http://203.0.113.5/").
  simpl in H1, H2.
  destruct (H1 eq_refl) as [Hu1 _].
  destruct (H2 eq_refl) as [Hu2 _].
  destruct (Hu1 "example.com"%string eq_refl) as [A B].
  destruct (Hu2 "203.0.113.5"%string eq_refl) as [C D].
  split; [exact A | split; [| split; [exact C |]]].
  - rewrite B. reflexivity.
  - rewrite D. reflexivity.
Defined.

(** ** The Range Set from the cache *)

Local Open Scope list_scope.

Section Cache.
Context {L : GoLib}.
Variable env : Env.

Lemma fold_appendRange (c : list string) (acc : list IPNet) :
  fold_left appendRange c acc = acc ++ rangesOf c.
Proof.
  revert acc. induction c as [|lit c IH]; intros acc; simpl.
  - now rewrite app_nil_r.
  - rewrite IH. unfold appendRange.
    destruct (ParseCIDR lit); simpl; [now rewrite <- app_assoc | reflexivity].
Qed.

Lemma Split_length_eqb (s : string) :
  Nat.eqb (length (strings.Split s strings.nl)) 0 = false.
Proof.
  apply Nat.eqb_neq. unfold strings.Split.
  pose proof (splitFrom_nonempty strings.nl s ""). lia.
Qed.

Lemma readCache_ranges (cahceFile : string) (acc : list IPNet) (tr : Trace) :
  readCache cahceFile acc tr
  = (Return (acc ++ rangesOf (strings.Split cahceFile strings.nl)), tr).
Proof.
  unfold readCache, bind. rewrite Split_length_eqb. simpl.
  now rewrite fold_appendRange.
Qed.

Lemma loadRanges_from_cache (path : string) (skip : bool) (tr : Trace) :
  isNil (snd (ioutil_ReadFile env tr path)) || skip = true ->
  loadRanges env path skip tr
  = (Return (rangesOf
               (strings.Split (fst (ioutil_ReadFile env tr path)) strings.nl)),
     tr ++ [EvReadFile path]).
Proof.
  intros H. unfold loadRanges, bind, call.
  destruct (ioutil_ReadFile env tr path) as [cahceFile err]. simpl in *.
  rewrite H. apply readCache_ranges.
Qed.

Lemma rangesOf_In (lits : list string) (range : IPNet) :
  In range (rangesOf lits)
  <-> exists lit, In lit lits /\ ParseCIDR lit = Some range.
Proof.
  unfold rangesOf. rewrite in_flat_map. split.
  - intros [lit [Hin Hr]]. exists lit. split; [assumption|].
    destruct (ParseCIDR lit) as [r|]; simpl in Hr; [|contradiction].
    destruct Hr as [->|[]]. reflexivity.
  - intros [lit [Hin Hr]]. exists lit. split; [assumption|].
    rewrite Hr. now left.
Qed.

End Cache.

(** C8.  When the Range Set is built from what was read of the cache, no
    literal aborts the startup, and the Range Set holds exactly the ranges of
    the literals that parse, in the order of the file; a cache of one valid
    literal and one line of garbage, in either order, gives the range of the
    valid literal alone. *)
Theorem malformed_cache_literals_dropped {L : GoLib}
    (env : Env) (path : string) (skip : bool) (tr : Trace) :
  let cahceFile := fst (ioutil_ReadFile env tr path) in
  let lits := strings.Split cahceFile strings.nl in
  isNil (snd (ioutil_ReadFile env tr path)) || skip = true ->
  loadRanges env path skip tr
  = (Return (rangesOf lits), tr ++ [EvReadFile path])
  /\ (forall range,
         In range (rangesOf lits)
         <-> exists lit, In lit lits /\ ParseCIDR lit = Some range)
  /\ (forall valid garbage range,
         strings.Contains valid newline = false ->
         strings.Contains garbage newline = false ->
         ParseCIDR valid = Some range ->
         ParseCIDR garbage = None ->
         cahceFile = (valid ++ newline ++ garbage)%string
         \/ cahceFile = (garbage ++ newline ++ valid)%string ->
         rangesOf lits = [range]).
Proof.
  intros cahceFile lits H. split; [|split].
  - apply loadRanges_from_cache, H.
  - intros range. apply rangesOf_In.
  - intros valid garbage range Hv Hg Pv Pg Hfile. subst lits.
    unfold strings.Split, newline in *.
    destruct Hfile as [-> | ->]; simpl;
      rewrite splitFrom_app by assumption;
      rewrite splitFrom_none by assumption; simpl;
      rewrite Pv, Pg; reflexivity.
Qed.

Lemma malformed_cache_literals_dropped_witness :
  let cache := ("203.0.113.77/24" ++ newline ++ "not a range")%string in
  loadRanges (sampleEnv (cache, None) [] false) sampleCachePath false []
  = (Return [(3405803776%N, 24%N)], [EvReadFile sampleCachePath]).
Proof.
  intros cache.
  destruct (@malformed_cache_literals_dropped ipv4
              (sampleEnv (cache, None) [] false) sampleCachePath false []
              eq_refl) as [Hload [_ Hone]].
  rewrite Hload.
  rewrite (Hone "203.0.113.77/24"%string "not a range"%string
                (3405803776%N, 24%N));
    first [left; reflexivity | reflexivity].
Defined.

(** ** The startup *)


Lemma clean_bind {A B : Type} (m : M A) (k : A -> M B) :
  clean m -> (forall a, clean (k a)) -> clean (bind m k).
Proof.
  intros Hm Hk tr. unfold bind. specialize (Hm tr).
  destruct (m tr) as [[a| e | |] tr']; simpl in *;
    [apply Hk | intros Heq; apply Hm; congruence | discriminate ..].
Qed.

Lemma keeps_bind {A B : Type} (m : M A) (k : A -> M B) :
  keeps m -> (forall a, keeps (k a)) -> keeps (bind m k).
Proof.
  intros Hm Hk tr e Hin. unfold bind. specialize (Hm tr e Hin).
  destruct (m tr) as [[a| e' | |] tr']; simpl in *;
    [now apply Hk | assumption ..].
Qed.

Lemma clean_ret {A : Type} (a : A) : clean (ret a).
Proof. intros tr. discriminate. Qed.

Lemma keeps_ret {A : Type} (a : A) : keeps (ret a).
Proof. intros tr e H. exact H. Qed.

Lemma clean_call {A : Type} (answer : Trace -> A) (e : Event) :
  clean (call answer e).
Proof. intros tr. discriminate. Qed.

Lemma keeps_call {A : Type} (answer : Trace -> A) (e : Event) :
  keeps (call answer e).
Proof. intros tr e' H. simpl. apply in_or_app. now left. Qed.

Lemma clean_fatal (msg : option string) : clean (fatal (option_map External msg)).
Proof. intros tr. destruct msg; discriminate. Qed.

Lemma keeps_fatal (err : option Error) : keeps (fatal err).
Proof. intros tr e H. destruct err; exact H. Qed.

Lemma clean_stop {A : Type} (o : Outcome A) :
  o <> Fatal EmptyCacheFile -> clean (fun tr => (o, tr)).
Proof. intros H tr. exact H. Qed.

Lemma keeps_stop {A : Type} (o : Outcome A) : keeps (fun tr => (o, tr)).
Proof. intros tr e H. exact H. Qed.

Create HintDb startup.
#[local] Hint Resolve clean_ret keeps_ret clean_call keeps_call
  clean_fatal keeps_fatal keeps_stop : startup.

Ltac startup_step :=
  match goal with
  | |- clean (bind _ _) => apply clean_bind; [| intros ?]
  | |- keeps (bind _ _) => apply keeps_bind; [| intros ?]
  | |- clean (fatal (Some (External ?m))) =>
      exact (clean_fatal (Some m))
  | |- clean (fun tr => (_, tr)) => apply clean_stop; discriminate
  | |- context [if ?b then _ else _] => destruct b
  | |- context [match ?x with _ => _ end] => destruct x
  | |- _ => solve [auto with startup]
  end.

Section Startup.
Context {L : GoLib}.
Variable env : Env.

Lemma clean_write (h : Handle) (s : string) : clean (write env h s).
Proof. intros tr. discriminate. Qed.

Lemma keeps_write (h : Handle) (s : string) : keeps (write env h s).
Proof. intros tr e H. simpl. apply in_or_app. now left. Qed.

Hint Resolve clean_write keeps_write : startup.

Lemma clean_writeCache (h : Handle) (rs : list IPNet) (i len : nat) :
  clean (writeCache env h i len rs).
Proof.
  revert i. induction rs as [|r rs IH]; intros i; simpl.
  - auto with startup.
  - repeat startup_step; apply IH.
Qed.

Lemma keeps_writeCache (h : Handle) (rs : list IPNet) (i len : nat) :
  keeps (writeCache env h i len rs).
Proof.
  revert i. induction rs as [|r rs IH]; intros i; simpl.
  - auto with startup.
  - repeat startup_step; apply IH.
Qed.

Lemma clean_readCache (cahceFile : string) (acc : list IPNet) :
  clean (readCache cahceFile acc).
Proof. intros tr. rewrite readCache_ranges. discriminate. Qed.

Lemma keeps_readCache (cahceFile : string) (acc : list IPNet) :
  keeps (readCache cahceFile acc).
Proof. intros tr e H. rewrite readCache_ranges. exact H. Qed.

Hint Resolve clean_writeCache keeps_writeCache clean_readCache
  keeps_readCache : startup.

Lemma clean_createCache (path : string) (ranges : list IPNet) :
  clean (createCache env path ranges).
Proof. unfold createCache. repeat startup_step. Qed.

Lemma keeps_createCache (path : string) (ranges : list IPNet) :
  keeps (createCache env path ranges).
Proof. unfold createCache. repeat startup_step. Qed.

Hint Resolve clean_createCache keeps_createCache : startup.



Lemma loadRanges_acquire (path : string) (tr : Trace) :
  snd (ioutil_ReadFile env tr path) <> None ->
  loadRanges env path false tr
  = match cdn_LoadAll env (tr ++ [EvReadFile path]) with
    | Success ranges =>
        bind (createCache env path ranges) (fun _ => ret ranges)
             ((tr ++ [EvReadFile path]) ++ [EvLoadAll])
    | Failure msg =>
        (Fatal (External msg), (tr ++ [EvReadFile path]) ++ [EvLoadAll])
    end.
Proof.
  intros Herr. unfold loadRanges, bind, call.
  destruct (ioutil_ReadFile env tr path) as [cahceFile [msg|]];
    [clear Herr | now elim Herr].
  simpl.
  destruct (cdn_LoadAll env (tr ++ [EvReadFile path])); reflexivity.
Qed.

Lemma clean_loadRanges (path : string) (skip : bool) :
  clean (loadRanges env path skip).
Proof. unfold loadRanges. repeat startup_step. Qed.

Lemma keeps_loadRanges (path : string) (skip : bool) :
  keeps (loadRanges env path skip).
Proof. unfold loadRanges. repeat startup_step. Qed.

Lemma clean_startup (f : Flags) : clean (startup env f).
Proof.
  unfold startup, getCacheFilePath, openOutput, openInput.
  repeat startup_step; apply clean_loadRanges.
Qed.

End Startup.

(** C9.  The check for an empty cache file in [main] never fires: a string
    split on newlines has at least one piece, so no startup ends on the
    error "empty cache file"; and, the empty string being no range
    literal, an empty cache gives an empty Range Set. *)
Theorem empty_cache_check_never_fires {L : GoLib} :
  (forall s, 1 <= length (strings.Split s strings.nl))
  /\ (forall env f tr, fst (startup env f tr) <> Fatal EmptyCacheFile)
  /\ (ParseCIDR "" = None ->
      forall env path skip tr,
        ioutil_ReadFile env tr path = (""%string, None) ->
        loadRanges env path skip tr = (Return [], tr ++ [EvReadFile path])).
Proof.
  split; [|split].
  - intros s. apply splitFrom_nonempty.
  - intros env f. apply clean_startup.
  - intros Hempty env path skip tr Hread.
    rewrite loadRanges_from_cache by (now rewrite Hread).
    rewrite Hread. simpl. now rewrite Hempty.
Qed.

Lemma empty_cache_check_never_fires_witness :
  loadRanges (sampleEnv (""%string, None) [] false) sampleCachePath false []
  = (Return [], [EvReadFile sampleCachePath]).
Proof.
  apply (proj2 (proj2 (@empty_cache_check_never_fires ipv4)) eq_refl).
  reflexivity.
Defined.





(** ** Go's [int] *)

Lemma wrapInt_small (z : Z) :
  (- 2 ^ 63 <= z < 2 ^ 63)%Z -> wrapInt z = z.
Proof.
  intros H. unfold wrapInt.
  rewrite Z.mod_small by (change (2 ^ 64)%Z with (2 * 2 ^ 63)%Z; lia). lia.
Qed.

Lemma incr_small (z : Z) : (0 <= z < 2 ^ 63 - 1)%Z -> incr z = (z + 1)%Z.
Proof. intros H. unfold incr. apply wrapInt_small. lia. Qed.

(** [x++] always changes [x]. *)
Lemma incr_changes (z : Z) : incr z <> z.
Proof.
  unfold incr, wrapInt. intros H.
  pose proof (Z.div_mod (z + 1 + 2 ^ 63) (2 ^ 64) ltac:(discriminate)) as D.
  change (2 ^ 64)%Z with 18446744073709551616%Z in *.
  change (2 ^ 63)%Z with 9223372036854775808%Z in *.
  lia.
Qed.

(** ** The body of [strip] *)

Section StripFacts.
Context {L : GoLib}.
Variable env : Env.
Variable ranges : list IPNet.
Variable file : File.
Variable raw : bool.

Local Abbreviation strip1 := (stripTask env ranges file raw).

(** The counters after a task: one is incremented, by the verdict. *)
Lemma stripTask_counters (t : E) (g : Shared) :
  (validIP (strip1 t g), invalidIP (strip1 t g), cdnIP (strip1 t g))
  = match verdict ranges t with
    | NoMatch => (incr (validIP g), invalidIP g, cdnIP g)
    | Invalid => (validIP g, incr (invalidIP g), cdnIP g)
    | MatchesRange => (validIP g, invalidIP g, incr (cdnIP g))
    end.
Proof.
  unfold stripTask, verdict.
  destruct (ParseIP (IP t)) as [i|]; [|reflexivity].
  destruct (Check ranges i); [reflexivity|].
  destruct raw;
    match goal with
    | |- context [WriteString ?e ?f ?s ?tr] =>
        destruct (WriteString e f s tr)
    end; reflexivity.
Qed.

(** The trace after a task: the write of its line, if it has one and the
    file is not nil. *)
Lemma stripTask_trace (t : E) (g : Shared) :
  trace (strip1 t g)
  = match file, sinkLine ranges raw t with
    | Some h, Some line =>
        trace g
        ++ [EvWrite h line
              (option_map External (sys_write env (trace g) h line))]
    | _, _ => trace g
    end.
Proof.
  unfold stripTask, sinkLine.
  destruct (ParseIP (IP t)) as [i|]; [|now destruct file].
  destruct (Check ranges i); [now destruct file|].
  destruct raw, file; reflexivity.
Qed.

Lemma sinkLine_verdict (t : E) :
  sinkLine ranges raw t <> None <-> verdict ranges t = NoMatch.
Proof.
  unfold sinkLine, verdict.
  destruct (ParseIP (IP t)) as [i|]; [destruct (Check ranges i)|];
    split; congruence.
Qed.

Lemma writesOf_app (a b : Trace) : writesOf (a ++ b) = writesOf a ++ writesOf b.
Proof. unfold writesOf. apply flat_map_app. Qed.


Lemma stripAll_writes (ts : list E) (g : Shared) :
  writesOf (trace (stripAll env ranges file raw ts g))
  = writesOf (trace g)
    ++ match file with
       | Some h => linesOf ranges raw h ts
       | None => []
       end.
Proof.
  unfold stripAll. revert g. induction ts as [|t ts IH]; intros g; simpl.
  - destruct file; now rewrite app_nil_r.
  - rewrite IH, stripTask_trace.
    destruct file as [h|]; [|reflexivity].
    destruct (sinkLine ranges raw t) as [line|]; simpl; [|reflexivity].
    rewrite writesOf_app. simpl. now rewrite <- app_assoc.
Qed.

Lemma stripAll_nil_file (ts : list E) (g : Shared) :
  file = None -> trace (stripAll env ranges file raw ts g) = trace g.
Proof.
  intros Hnil. unfold stripAll. revert g.
  induction ts as [|t ts IH]; intros g; simpl; [reflexivity|].
  rewrite IH, stripTask_trace. now rewrite Hnil.
Qed.


Lemma stripTask_total (t : E) (g : Shared) :
  nonneg g -> (total g < 2 ^ 63 - 1)%Z ->
  nonneg (strip1 t g) /\ total (strip1 t g) = (total g + 1)%Z.
Proof.
  intros (Hv & Hi & Hc) Hlt. unfold nonneg, total in *.
  pose proof (stripTask_counters t g) as Hcnt.
  destruct (verdict ranges t); injection Hcnt as -> -> ->;
    rewrite incr_small by lia; lia.
Qed.

Lemma stripAll_total (ts : list E) (g : Shared) :
  nonneg g -> (total g + Z.of_nat (length ts) < 2 ^ 63)%Z ->
  nonneg (stripAll env ranges file raw ts g)
  /\ total (stripAll env ranges file raw ts g)
     = (total g + Z.of_nat (length ts))%Z.
Proof.
  unfold stripAll. revert g.
  induction ts as [|t ts IH]; intros g Hnn Hlt; simpl fold_left.
  - split; [assumption | simpl; lia].
  - change (length (t :: ts)) with (S (length ts)) in *.
    destruct (stripTask_total t g Hnn ltac:(lia)) as [Hnn' Htot].
    destruct (IH _ Hnn' ltac:(lia)) as [Hnn'' Htot''].
    split; [assumption | lia].
Qed.

End StripFacts.

(** ** The pipeline *)


Lemma holdingOf_app (a b : list Worker) :
  holdingOf (a ++ b) = holdingOf a ++ holdingOf b.
Proof. unfold holdingOf. apply flat_map_app. Qed.

Lemma tasksOf_app (a b : list Label) : tasksOf (a ++ b) = tasksOf a ++ tasksOf b.
Proof. unfold tasksOf. apply flat_map_app. Qed.



Section PipelineFacts.
Context {L : GoLib}.
Variable env : Env.
Variable ranges : list IPNet.
Variable file : File.
Variable raw : bool.
Variable thread : nat.

Local Abbreviation step1 := (step env ranges file raw thread).
Local Abbreviation run1 := (run env ranges file raw thread).
Local Abbreviation stripAll1 := (stripAll env ranges file raw).


Lemma run_app (p q r : Pipe) (ls ls' : list Label) :
  run1 p ls q -> run1 q ls' r -> run1 p (ls ++ ls') r.
Proof.
  induction 1 as [|p l p' ls0 q Hstep Hrun IH]; intros Hr; simpl.
  - exact Hr.
  - econstructor; [exact Hstep | exact (IH Hr)].
Qed.

(** Only a commit changes the shared variables, and it runs the body of
    [strip] on them. *)
Lemma step_shared (p p' : Pipe) (l : Label) :
  step1 p l p' -> shared p' = stripAll1 (tasksOf [l]) (shared p).
Proof. destruct 1; reflexivity. Qed.

Lemma run_shared (p p' : Pipe) (ls : list Label) :
  run1 p ls p' -> shared p' = stripAll1 (tasksOf ls) (shared p).
Proof.
  induction 1 as [|p l p' ls p'' Hstep Hrun IH]; [reflexivity|].
  rewrite IH, (step_shared _ _ _ Hstep).
  change (l :: ls) with ([l] ++ ls). rewrite tasksOf_app.
  unfold stripAll. now rewrite fold_left_app.
Qed.

(** A step moves a task along, and a commit takes one from the state. *)
Lemma step_todo (p p' : Pipe) (l : Label) :
  step1 p l p' -> Permutation (tasksOf [l] ++ todo p') (todo p).
Proof.
  destruct 1; unfold todo; simpl;
    rewrite ?holdingOf_app; simpl; rewrite <- ?app_assoc; simpl.
  - reflexivity.
  - reflexivity.
  - apply Permutation_app_head. apply Permutation_middle.
  - apply Permutation_middle.
  - reflexivity.
Qed.

Lemma run_todo (p p' : Pipe) (ls : list Label) :
  run1 p ls p' -> Permutation (tasksOf ls ++ todo p') (todo p).
Proof.
  induction 1 as [|p l p' ls p'' Hstep Hrun IH]; [reflexivity|].
  change (l :: ls) with ([l] ++ ls). rewrite tasksOf_app, <- app_assoc.
  rewrite IH. apply (step_todo _ _ _ Hstep).
Qed.

Lemma In_Exited_swap (ws1 ws2 : list Worker) (w w' : Worker) :
  w <> Exited ->
  In Exited (ws1 ++ w :: ws2) -> In Exited (ws1 ++ w' :: ws2).
Proof.
  intros Hw Hin. apply in_app_or in Hin as [Hin|[Hin|Hin]].
  - apply in_or_app. now left.
  - congruence.
  - apply in_or_app. right. now right.
Qed.

Lemma step_wf (p p' : Pipe) (l : Label) : step1 p l p' -> wf thread p -> wf thread p'.
Proof.
  destruct 1; unfold wf; simpl; intros (Hlen & Hq & Hcl & Hex);
    (split; [|split; [|split]]);
    rewrite ?length_app in *; simpl in *; try lia; try assumption.
  - intros Hin. destruct (Hex Hin). discriminate.
  - reflexivity.
  - intros Hin. destruct (Hex Hin). discriminate.
  - intros Hin.
    destruct (Hex (In_Exited_swap ws1 ws2 (Holding t) Waiting
                     ltac:(discriminate) Hin)).
    discriminate.
  - intros Hin.
    exact (Hex (In_Exited_swap ws1 ws2 Waiting (Holding t)
                  ltac:(discriminate) Hin)).
  - intros _. split; reflexivity.
Qed.

Lemma run_wf (p p' : Pipe) (ls : list Label) : run1 p ls p' -> wf thread p -> wf thread p'.
Proof.
  induction 1 as [|p l p' ls p'' Hstep Hrun IH]; [auto|].
  intros Hwf. apply IH. exact (step_wf _ _ _ Hstep Hwf).
Qed.

Lemma initPipe_wf (tasks : list E) (g : Shared) : wf thread (initPipe thread tasks g).
Proof.
  unfold wf, initPipe; simpl. rewrite repeat_length.
  split; [reflexivity | split; [lia | split; [discriminate|]]].
  intros Hin. apply repeat_spec in Hin. discriminate.
Qed.

Lemma initPipe_todo (tasks : list E) (g : Shared) :
  todo (initPipe thread tasks g) = tasks.
Proof.
  unfold todo, initPipe; simpl.
  assert (H : holdingOf (repeat Waiting thread) = [])
    by (clear; induction thread; simpl; auto).
  now rewrite H.
Qed.

(** When [wg.Wait()] returns, nothing is left to commit. *)
Lemma completed_todo (p : Pipe) : wf thread p -> completed p -> todo p = [].
Proof.
  intros (Hlen & Hq & Hcl & Hex) (Hpend & Hclosed & Hall). unfold todo.
  assert (Hhold : holdingOf (workers p) = []).
  { clear -Hall. induction Hall as [|w ws <- _ IH]; [reflexivity | exact IH]. }
  assert (Hqueue : queue p = []).
  { destruct (workers p) as [|w ws] eqn:Hws.
    - simpl in Hlen. destruct (queue p); [reflexivity | simpl in Hq; lia].
    - inversion Hall as [|? ? Hw _]; subst. apply Hex. now left. }
  now rewrite Hhold, Hqueue, Hpend.
Qed.




(** The schedule that sends, receives and commits one task at a time. *)
Lemma run_one_by_one (tasks : list E) (ws : list Worker) (g : Shared) :
  1 <= thread ->
  exists ls,
    run1 (mkPipe tasks [] false (Waiting :: ws) g) ls
         (mkPipe [] [] false (Waiting :: ws) (stripAll1 tasks g)).
Proof.
  intros Ht. revert g. induction tasks as [|t tasks IH]; intros g.
  - exists []. constructor.
  - destruct (IH (stripTask env ranges file raw t g)) as [ls Hrun].
    exists (Send t :: Recv 0 t :: Commit 0 t :: ls).
    econstructor; [apply step_send; simpl; lia|].
    econstructor; [apply (step_recv env ranges file raw thread tasks t [] false [] ws g)|].
    econstructor; [apply (step_commit env ranges file raw thread tasks [] false [] t ws g)|].
    exact Hrun.
Qed.

Lemma run_exit_all (n : nat) (ws1 : list Worker) (g : Shared) :
  exists ls,
    run1 (mkPipe [] [] true (ws1 ++ repeat Waiting n) g) ls
         (mkPipe [] [] true (ws1 ++ repeat Exited n) g).
Proof.
  revert ws1. induction n as [|n IH]; intros ws1.
  - exists []. constructor.
  - destruct (IH (ws1 ++ [Exited])) as [ls Hrun].
    exists (Exit (length ws1) :: ls). simpl.
    econstructor; [apply step_exit|].
    rewrite <- !app_assoc in Hrun. exact Hrun.
Qed.

(** With at least one worker the pipeline can always run to its end. *)
Lemma run_completes (tasks : list E) (g : Shared) :
  1 <= thread ->
  exists ls p,
    run1 (initPipe thread tasks g) ls p
    /\ completed p
    /\ shared p = stripAll1 tasks g.
Proof.
  intros Ht. unfold initPipe.
  assert (Hrep : forall n, 1 <= n ->
                 repeat Waiting n = Waiting :: repeat Waiting (n - 1)).
  { intros [|n] Hn; [lia|]. simpl. now rewrite Nat.sub_0_r. }
  destruct (run_one_by_one tasks (repeat Waiting (thread - 1)) g Ht)
    as [ls1 H1].
  destruct (run_exit_all thread [] (stripAll1 tasks g)) as [ls2 H2].
  rewrite <- (Hrep thread Ht) in H1. simpl in H2.
  exists (ls1 ++ Close :: ls2), (mkPipe [] [] true (repeat Exited thread)
                                        (stripAll1 tasks g)).
  split; [|split].
  - eapply run_app; [exact H1|].
    econstructor; [apply step_close | exact H2].
  - unfold completed; simpl. repeat split.
    clear. induction thread; simpl; constructor; auto.
  - reflexivity.
Qed.

End PipelineFacts.

(** ** The pipeline from its first state to its end *)

Section Runs.
Context {L : GoLib}.
Variable env : Env.
Variable ranges : list IPNet.
Variable file : File.
Variable raw : bool.
Variable thread : nat.

(** A run to the end commits every task once, in some order. *)
Lemma run_commits_all (tasks : list E) (g : Shared) (ls : list Label)
    (p : Pipe) :
  run env ranges file raw thread (initPipe thread tasks g) ls p ->
  completed p ->
  Permutation (tasksOf ls) tasks
  /\ shared p = stripAll env ranges file raw (tasksOf ls) g.
Proof.
  intros Hrun Hdone. split.
  - pose proof (run_todo _ _ _ _ _ _ _ _ Hrun) as Hperm.
    rewrite (completed_todo thread p) in Hperm;
      [| exact (run_wf _ _ _ _ _ _ _ _ Hrun (initPipe_wf thread tasks g))
       | exact Hdone].
    rewrite app_nil_r, initPipe_todo in Hperm. exact Hperm.
  - exact (run_shared _ _ _ _ _ _ _ _ Hrun).
Qed.

(** The sum of the counters at the end of a run. *)
Lemma run_total (tasks : list E) (g : Shared) (ls : list Label) (p : Pipe) :
  run env ranges file raw thread (initPipe thread tasks g) ls p ->
  completed p ->
  nonneg g -> (total g + Z.of_nat (length tasks) < 2 ^ 63)%Z ->
  total (shared p) = (total g + Z.of_nat (length tasks))%Z.
Proof.
  intros Hrun Hdone Hnn Hlt.
  destruct (run_commits_all tasks g ls p Hrun Hdone) as [Hperm ->].
  rewrite <- (Permutation_length Hperm) in *.
  now apply stripAll_total.
Qed.

(** The write calls at the end of a run on an open file [h]: the lines of
    the tasks, one for each task whose verdict is [NoMatch], in some
    order. *)
Lemma run_lines (h : Handle) (tasks : list E) (g : Shared) (ls : list Label)
    (p : Pipe) :
  file = Some h ->
  run env ranges file raw thread (initPipe thread tasks g) ls p ->
  completed p ->
  exists added,
    writesOf (trace (shared p)) = writesOf (trace g) ++ added
    /\ Permutation added (linesOf ranges raw h tasks).
Proof.
  intros Hfile Hrun Hdone.
  destruct (run_commits_all tasks g ls p Hrun Hdone) as [Hperm ->].
  exists (linesOf ranges raw h (tasksOf ls)). split.
  - rewrite stripAll_writes. now rewrite Hfile.
  - unfold linesOf. now apply Permutation_flat_map.
Qed.

(** With the nil file no run writes anything. *)
Lemma run_nil_file (p p' : Pipe) (ls : list Label) :
  file = None ->
  run env ranges file raw thread p ls p' ->
  trace (shared p') = trace (shared p).
Proof.
  intros Hfile Hrun. rewrite (run_shared _ _ _ _ _ _ _ _ Hrun).
  now apply stripAll_nil_file.
Qed.

End Runs.

(** C3.  When [main] has started and the pipeline has run to its end, the
    three counters add up to the number of tasks that [loadInput] sent
    (which Go's [int] can hold); the run has committed each of these tasks
    once, and a commit increments exactly one counter, chosen by the
    verdict. *)
Theorem counters_sum_to_tasks {L : GoLib}
    (env : Env) (f : Flags) (su : Setup) (tr : Trace)
    (ls : list Label) (p : Pipe) :
  let tasks := loadInput (getIPv6 f) (lines su) in
  let n := Z.to_nat (thread_flag f) in
  startup env f [] = (Return su, tr) ->
  (Z.of_nat (length tasks) < 2 ^ 63)%Z ->
  run env (cdnRanges su) (outFile su) (outputRaw_flag f) n
      (initPipe n tasks (initShared tr)) ls p ->
  completed p ->
  (validIP (shared p) + invalidIP (shared p) + cdnIP (shared p)
   = Z.of_nat (length tasks))%Z
  /\ Permutation (tasksOf ls) tasks
  /\ shared p
     = stripAll env (cdnRanges su) (outFile su) (outputRaw_flag f)
                (tasksOf ls) (initShared tr)
  /\ forall t g,
      let g' := stripTask env (cdnRanges su) (outFile su) (outputRaw_flag f)
                          t g in
      (validIP g', invalidIP g', cdnIP g')
      = match verdict (cdnRanges su) t with
        | NoMatch => (incr (validIP g), invalidIP g, cdnIP g)
        | Invalid => (validIP g, incr (invalidIP g), cdnIP g)
        | MatchesRange => (validIP g, invalidIP g, incr (cdnIP g))
        end
      /\ incr (validIP g) <> validIP g
      /\ incr (invalidIP g) <> invalidIP g
      /\ incr (cdnIP g) <> cdnIP g.
Proof.
  intros tasks n Hstart Hlt Hrun Hdone.
  destruct (run_commits_all _ _ _ _ _ _ _ _ _ Hrun Hdone) as [Hperm Hsh].
  split; [|split; [exact Hperm | split; [exact Hsh|]]].
  - apply (run_total _ _ _ _ _ _ _ _ _ Hrun Hdone).
    + unfold nonneg; simpl; lia.
    + unfold total; simpl. lia.
  - intros t g g'. split; [apply stripTask_counters|].
    repeat split; apply incr_changes.
Qed.

Lemma counters_sum_to_tasks_witness :
  let env := sampleEnv ("203.0.113.0/24"%string, None)
               ["203.0.113.5"; "198.51.100.7"; "example.com";
                "192.168.0.0/30"]%string false in
  exists p, completed p
            /\ (validIP (shared p) + invalidIP (shared p) + cdnIP (shared p)
                = 6)%Z.
Proof.
  intros env.
  pose (f := sampleFlags "-" false).
  pose (su := {| cdnRanges := [(3405803776%N, 24%N)];
                 outFile := Some Stdout;
                 lines := ["203.0.113.5"; "198.51.100.7"; "example.com";
                           "192.168.0.0/30"]%string |}).
  pose (tr := [EvReadFile sampleCachePath]).
  destruct (run_completes env (cdnRanges su) (outFile su) (outputRaw_flag f)
              (Z.to_nat (thread_flag f))
              (loadInput (getIPv6 f) (lines su)) (initShared tr)
              ltac:(vm_compute; lia))
    as (ls & p & Hrun & Hdone & _).
  exists p. split; [exact Hdone|].
  exact (proj1 (@counters_sum_to_tasks ipv4 env f su tr ls p
                  eq_refl ltac:(vm_compute; reflexivity) Hrun Hdone)).
Defined.

(** C4.  In every state of the pipeline, whatever the number of workers:
    the commit of a task whose verdict is [MatchesRange] counts it in
    [cdnIP] and makes no call at all, so no line is written for it; and a
    step that makes a call is the commit of a task whose verdict is
    [NoMatch], which leaves [cdnIP] as it is. *)
Theorem matched_task_never_written {L : GoLib}
    (env : Env) (ranges : list IPNet) (file : File) (raw : bool)
    (thread : nat) (p p' : Pipe) (l : Label) :
  step env ranges file raw thread p l p' ->
  (forall w t,
      l = Commit w t -> verdict ranges t = MatchesRange ->
      sinkLine ranges raw t = None
      /\ trace (shared p') = trace (shared p)
      /\ cdnIP (shared p') = incr (cdnIP (shared p))
      /\ validIP (shared p') = validIP (shared p))
  /\ (trace (shared p') <> trace (shared p) ->
      exists w t,
        l = Commit w t /\ verdict ranges t = NoMatch
        /\ cdnIP (shared p') = cdnIP (shared p)).
Proof.
  intros Hstep. split.
  - intros w t -> Hv. inversion Hstep; subst; simpl.
    pose proof (stripTask_counters env ranges file raw t g) as Hcnt.
    pose proof (stripTask_trace env ranges file raw t g) as Htr.
    rewrite Hv in Hcnt. injection Hcnt as Hvalid _ Hcdn.
    assert (Hline : sinkLine ranges raw t = None).
    { destruct (sinkLine ranges raw t) eqn:Hs; [|reflexivity].
      assert (Hn : verdict ranges t = NoMatch)
        by (apply (sinkLine_verdict ranges raw t); congruence).
      congruence. }
    rewrite Hline in Htr. destruct file; auto.
  - intros Hchg. destruct Hstep; simpl in *; try (now elim Hchg).
    exists (length ws1), t.
    pose proof (stripTask_counters env ranges file raw t g) as Hcnt.
    pose proof (stripTask_trace env ranges file raw t g) as Htr.
    assert (Hv : verdict ranges t = NoMatch).
    { apply (sinkLine_verdict ranges raw t). intros Hnone.
      rewrite Hnone in Htr. destruct file; now elim Hchg. }
    rewrite Hv in Hcnt. injection Hcnt as _ _ Hcdn. auto.
Qed.

Lemma matched_task_never_written_witness :
  let env := sampleEnv ("203.0.113.0/24"%string, None) [] false in
  let ranges := [(3405803776%N, 24%N)] in
  let t := {| Raw := "203.0.113.5"; IP := "203.0.113.5" |} in
  let g := initShared [EvReadFile sampleCachePath] in
  trace (stripTask env ranges (Some Stdout) false t g)
  = [EvReadFile sampleCachePath]
  /\ cdnIP (stripTask env ranges (Some Stdout) false t g) = 1%Z.
Proof.
  intros env ranges t g.
  destruct (@matched_task_never_written ipv4 env ranges (Some Stdout) false 1
              (mkPipe [] [] false ([] ++ Holding t :: []) g)
              (mkPipe [] [] false ([] ++ Waiting :: [])
                      (stripTask env ranges (Some Stdout) false t g))
              (Commit 0 t)
              (step_commit env ranges (Some Stdout) false 1
                           [] [] false [] t [] g)) as [Hm _].
  destruct (Hm 0 t eq_refl eq_refl) as (_ & Htr & Hcdn & _).
  split; [exact Htr | exact Hcdn].
Defined.



(** ** The output file *)

Lemma bind_Return {A B : Type} (m : M A) (k : A -> M B) (tr tr' : Trace)
    (b : B) :
  bind m k tr = (Return b, tr') ->
  exists a tr1, m tr = (Return a, tr1) /\ k a tr1 = (Return b, tr').
Proof.
  unfold bind. destruct (m tr) as [[a| e | |] tr1]; try discriminate.
  intros H. now exists a, tr1.
Qed.

Section Output.
Context {L : GoLib}.
Variable env : Env.

Lemma keeps_openInput (param : string) : keeps (openInput env param).
Proof. unfold openInput. repeat startup_step. Qed.

(** With [-o name], the file is created and the workers get the nil file. *)
Lemma openOutput_named (out : string) (tr tr' : Trace) (file : File) :
  String.eqb out "-" = false ->
  openOutput env out tr = (Return file, tr') ->
  file = None /\ tr' = tr ++ [EvCreate out].
Proof.
  unfold openOutput, bind, call. intros ->.
  destruct (os_Create env tr out); simpl; intros H; inversion H; auto.
Qed.

Lemma startup_named_output (f : Flags) (su : Setup) (tr0 tr : Trace) :
  String.eqb (out f) "-" = false ->
  startup env f tr0 = (Return su, tr) ->
  outFile su = None /\ In (EvCreate (out f)) tr.
Proof.
  intros Hout Hs. unfold startup in Hs.
  apply bind_Return in Hs as (path & tr1 & _ & Hs).
  apply bind_Return in Hs as (u2 & tr2 & _ & Hs).
  apply bind_Return in Hs as (ranges & tr3 & _ & Hs).
  apply bind_Return in Hs as (file & tr4 & Hopen & Hs).
  apply bind_Return in Hs as (u5 & tr5 & Hpanic & Hs).
  apply bind_Return in Hs as (ls & tr6 & Hin & Hs).
  destruct (openOutput_named _ _ _ _ Hout Hopen) as [-> ->].
  injection Hs as Hsu Htr. subst su tr. split; [reflexivity|].
  assert (H5 : In (EvCreate (out f)) tr5).
  { destruct (thread_flag f <? 0)%Z; [discriminate|].
    inversion Hpanic; subst. apply in_or_app. right. now left. }
  pose proof (keeps_openInput (input f) tr5 _ H5) as H6.
  now rewrite Hin in H6.
Qed.

(** With [-o name], whatever the input and the schedule, the pipeline makes
    no call: when [main] returns, the trace is that of the startup, and the
    file is closed. *)
Lemma named_output_no_write (f : Flags) (g : Shared) :
  String.eqb (out f) "-" = false ->
  mainReturns env f g ->
  exists su tr,
    startup env f [] = (Return su, tr)
    /\ In (EvCreate (out f)) tr
    /\ trace g = tr ++ [EvClose (FileAt (out f))].
Proof.
  intros Hout (su & tr & ls & p & Hs & Hrun & Hdone & ->).
  destruct (startup_named_output f su [] tr Hout Hs) as [Hnil Hin].
  exists su, tr. repeat split; try assumption.
  unfold finish. rewrite Hout. simpl.
  now rewrite (run_nil_file _ _ _ _ _ _ _ _ Hnil Hrun).
Qed.

(** With [-o -], the default, and [-t] at least 1, the write calls of the
    pipeline are the lines of the tasks whose verdict is [NoMatch], each
    once, in some order, all on standard output. *)
Lemma stdout_gets_the_lines (f : Flags) (g : Shared) :
  out f = "-"%string ->
  mainReturns env f g ->
  exists su tr added,
    startup env f [] = (Return su, tr)
    /\ writesOf (trace g) = writesOf tr ++ added
    /\ Permutation added
         (linesOf (cdnRanges su) (outputRaw_flag f) Stdout
                  (loadInput (getIPv6 f) (lines su))).
Proof.
  intros Hout (su & tr & ls & p & Hs & Hrun & Hdone & ->).
  unfold finish. rewrite Hout. simpl String.eqb. cbv iota.
  assert (Hfile : outFile su = Some Stdout).
  { unfold startup in Hs.
    apply bind_Return in Hs as (path & tr1 & _ & Hs).
    apply bind_Return in Hs as (u2 & tr2 & _ & Hs).
    apply bind_Return in Hs as (ranges & tr3 & _ & Hs).
    apply bind_Return in Hs as (file & tr4 & Hopen & Hs).
    apply bind_Return in Hs as (u5 & tr5 & _ & Hs).
    apply bind_Return in Hs as (ls' & tr6 & _ & Hs).
    injection Hs as Hsu Htr. subst su tr. simpl.
    unfold openOutput in Hopen. rewrite Hout in Hopen.
    now injection Hopen as <- _. }
  destruct (run_lines _ _ _ _ _ _ _ _ _ _ Hfile Hrun Hdone)
    as (added & Hw & Hperm).
  now exists su, tr, added.
Qed.

End Output.

(** C1, on the command line [-o out.txt] with the cache [203.0.113.0/24] and
    the input line [198.51.100.7].  The verdict on the one task is
    [NoMatch] and its line is the address; [main] returns, having counted
    the task in [validIP], and all it did is read the cache, create
    [out.txt] and close it: nothing is written to the file. *)
Theorem named_output_file_stays_empty :
  let env := sampleEnv ("203.0.113.0/24"%string, None)
                       ["198.51.100.7"%string] false in
  let f := sampleFlags "out.txt" false in
  let t := {| Raw := "198.51.100.7"; IP := "198.51.100.7" |} in
  loadInput (getIPv6 f) (os_Stdin env) = [t]
  /\ sinkLine sampleRanges false t
     = Some ("198.51.100.7" ++ newline)%string
  /\ (exists g, mainReturns env f g)
  /\ forall g,
      mainReturns env f g ->
      validIP g = 1%Z
      /\ trace g = [EvReadFile sampleCachePath; EvCreate "out.txt";
                    EvClose (FileAt "out.txt")]
      /\ written (FileAt "out.txt") (trace g) = ""%string.
Proof.
  intros env f t.
  split; [reflexivity | split; [reflexivity | split]].
  - destruct (run_completes env sampleRanges None false 1 [t]
                (initShared [EvReadFile sampleCachePath;
                             EvCreate "out.txt"]) (le_n 1))
      as (ls & p & Hrun & Hdone & _).
    exists (finish f (shared p)),
      (@mkSetup ipv4 sampleRanges None ["198.51.100.7"%string]),
      [EvReadFile sampleCachePath; EvCreate "out.txt"], ls, p.
    split; [reflexivity | split; [exact Hrun | split; [exact Hdone|]]].
    reflexivity.
  - intros g (su & tr & ls & p & Hs & Hrun & Hdone & ->).
    assert (Hs' : startup env f []
                  = (Return (@mkSetup ipv4 sampleRanges None
                                      ["198.51.100.7"%string]),
                     [EvReadFile sampleCachePath; EvCreate "out.txt"]))
      by reflexivity.
    rewrite Hs' in Hs. injection Hs as <- <-.
    destruct (run_commits_all _ _ _ _ _ _ _ _ _ Hrun Hdone) as [Hperm Hsh].
    change (Permutation (tasksOf ls) [t]) in Hperm.
    apply Permutation_sym, Permutation_length_1_inv in Hperm.
    rewrite Hperm in Hsh. rewrite Hsh.
    repeat split; reflexivity.
Qed.

(** The same run with the default [-o -]: the line goes to standard
    output. *)
Lemma stdout_sample_run :
  let env := sampleEnv ("203.0.113.0/24"%string, None)
                       ["198.51.100.7"%string] false in
  forall g,
    mainReturns env (sampleFlags "-" false) g ->
    validIP g = 1%Z
    /\ written Stdout (trace g) = ("198.51.100.7" ++ newline)%string.
Proof.
  intros env g (su & tr & ls & p & Hs & Hrun & Hdone & ->).
  assert (Hs' : startup env (sampleFlags "-" false) []
                = (Return (@mkSetup ipv4 sampleRanges (Some Stdout)
                                    ["198.51.100.7"%string]),
                   [EvReadFile sampleCachePath]))
    by reflexivity.
  rewrite Hs' in Hs. injection Hs as <- <-.
  destruct (run_commits_all _ _ _ _ _ _ _ _ _ Hrun Hdone) as [Hperm Hsh].
  change (Permutation (tasksOf ls)
            [{| Raw := "198.51.100.7"; IP := "198.51.100.7" |}]) in Hperm.
  apply Permutation_sym, Permutation_length_1_inv in Hperm.
  rewrite Hperm in Hsh. rewrite Hsh.
  split; reflexivity.
Qed.

(** * Further properties of the code *)

(** ** The cache file that [main] writes *)

Lemma Handle_eqb_refl (h : Handle) : Handle_eqb h h = true.
Proof. destruct h; simpl; [reflexivity | apply String.eqb_refl]. Qed.

Lemma written_app (h : Handle) (a b : Trace) :
  written h (a ++ b) = (written h a ++ written h b)%string.
Proof.
  induction a as [|e a IH]; simpl; [reflexivity|].
  destruct e as [ | | | | | h' s [err|] | ]; try exact IH.
  destruct (Handle_eqb h h'); [|exact IH].
  now rewrite IH, append_assoc.
Qed.

Lemma Split_joinLines (l : list string) :
  l <> [] ->
  (forall s, In s l -> strings.Contains s newline = false) ->
  strings.Split (joinLines l) strings.nl = l.
Proof.
  unfold strings.Split, newline.
  induction l as [|s l IH]; intros Hne Hnl; [contradiction|].
  destruct l as [|s2 l].
  - simpl. rewrite splitFrom_none by (apply Hnl; now left). reflexivity.
  - change (joinLines (s :: s2 :: l))
      with (s ++ String strings.nl (joinLines (s2 :: l)))%string.
    rewrite splitFrom_app by (apply Hnl; now left).
    rewrite IH; [reflexivity | discriminate |].
    intros s' Hin. apply Hnl. now right.
Qed.

Section CacheFile.
Context {L : GoLib}.
Variable env : Env.

Lemma write_reliable (h : Handle) (s : string) (tr : Trace) :
  reliable env ->
  write env h s tr = (Return tt, tr ++ [EvWrite h s None]).
Proof.
  intros Hrel. unfold reliable in Hrel. unfold write, WriteString.
  now rewrite Hrel.
Qed.

Lemma writeCache_written (h : Handle) (rs : list IPNet) (i len : nat)
    (tr : Trace) :
  reliable env ->
  i + length rs = len ->
  fst (writeCache env h i len rs tr) = Return tt
  /\ written h (snd (writeCache env h i len rs tr))
     = (written h tr ++ joinLines (map IPNet_String rs))%string.
Proof.
  intros Hrel. pose proof Hrel as Hw0. unfold reliable in Hw0. revert i tr.
  induction rs as [|r rs IH]; intros i tr Hlen.
  - simpl. now rewrite append_empty_r.
  - simpl writeCache. unfold bind, write, WriteString. rewrite Hw0. simpl.
    destruct (Nat.eqb_spec i (len - 1)) as [Hlast | Hmid]; simpl.
    + destruct rs as [|r2 rs]; [|simpl in Hlen; lia].
      simpl. rewrite written_app. simpl.
      now rewrite Handle_eqb_refl, append_empty_r.
    + destruct rs as [|r2 rs]; [simpl in Hlen; lia|].
      rewrite Hw0. cbn [option_map].
      destruct (IH (S i) ((tr ++ [EvWrite h (IPNet_String r) None])
                          ++ [EvWrite h (String strings.nl EmptyString) None]))
        as [Hret Hw]; [simpl in *; lia|].
      split; [exact Hret|]. rewrite Hw, !written_app. simpl written.
      rewrite Handle_eqb_refl, !append_empty_r.
      simpl map. now rewrite !append_assoc.
Qed.

End CacheFile.

(** X1.  When the new cache file can be opened and the writes succeed, what
    [main] writes to it is the text of the ranges with one newline between
    two of them and none after the last. *)
Theorem new_cache_is_newline_separated {L : GoLib}
    (env : Env) (path : string) (ranges : list IPNet) (tr : Trace) :
  reliable env ->
  os_OpenFile env tr path = None ->
  fst (createCache env path ranges tr) = Return tt
  /\ written (FileAt path) (snd (createCache env path ranges tr))
     = (written (FileAt path) tr
        ++ joinLines (map IPNet_String ranges))%string.
Proof.
  intros Hrel Hopen.
  assert (Heq : createCache env path ranges tr
                = bind (writeCache env (FileAt path) 0 (length ranges) ranges)
                       (fun _ => call (fun _ => tt) (EvClose (FileAt path)))
                       (tr ++ [EvOpenFile path])).
  { unfold createCache. unfold bind at 1. unfold call at 1. rewrite Hopen.
    reflexivity. }
  rewrite Heq. clear Heq. unfold bind.
  destruct (writeCache_written env (FileAt path) ranges 0 (length ranges)
              (tr ++ [EvOpenFile path]) Hrel eq_refl) as [Hret Hw].
  destruct (writeCache env (FileAt path) 0 (length ranges) ranges
              (tr ++ [EvOpenFile path])) as [o tr'].
  simpl in Hret, Hw. subst o. unfold call. simpl.
  rewrite written_app, Hw, written_app. simpl.
  now rewrite !append_empty_r.
Qed.

Lemma new_cache_is_newline_separated_witness :
  written (FileAt sampleCachePath)
    (snd (createCache (sampleEnv (""%string, Some "absent"%string) [] false)
            sampleCachePath
            ([(3405803776%N, 24%N); (167772160%N, 8%N)] : list (@IPNet ipv4))
            []))
  = ("203.0.113.0/24" ++ newline ++ "10.0.0.0/8")%string.
Proof.
  apply (proj2 (@new_cache_is_newline_separated ipv4
                  (sampleEnv (""%string, Some "absent"%string) [] false)
                  sampleCachePath
                  [(3405803776%N, 24%N); (167772160%N, 8%N)] []
                  (fun _ _ _ => eq_refl) eq_refl)).
Defined.

(** X2.  A cache file written by one run is read back by the next as the
    same Range Set, when the library parses what it prints: every range
    prints without a newline and parses back to itself, and the empty
    string is no range. *)
Theorem cache_round_trip {L : GoLib}
    (env : Env) (path : string) (skip : bool) (tr : Trace)
    (ranges : list IPNet) :
  (forall r, In r ranges ->
             ParseCIDR (IPNet_String r) = Some r
             /\ strings.Contains (IPNet_String r) newline = false) ->
  ParseCIDR "" = None ->
  ioutil_ReadFile env tr path
  = (joinLines (map IPNet_String ranges), None) ->
  loadRanges env path skip tr = (Return ranges, tr ++ [EvReadFile path]).
Proof.
  intros Hlib Hempty Hread.
  rewrite loadRanges_from_cache by (now rewrite Hread).
  rewrite Hread. simpl fst. f_equal. f_equal.
  destruct ranges as [|r ranges].
  - simpl. now rewrite Hempty.
  - rewrite Split_joinLines.
    + clear Hread. induction (r :: ranges) as [|x l IH]; [reflexivity|].
      simpl. destruct (Hlib x (or_introl eq_refl)) as [-> _]. simpl.
      f_equal. apply IH. intros y Hy. apply Hlib. now right.
    + discriminate.
    + intros s Hin. apply in_map_iff in Hin as (x & <- & Hx).
      apply Hlib, Hx.
Qed.

Lemma cache_round_trip_witness :
  let ranges : list (@IPNet ipv4) :=
    [(3405803776%N, 24%N); (167772160%N, 8%N)] in
  loadRanges
    (sampleEnv (joinLines (map IPNet_String ranges), None) [] false)
    sampleCachePath false []
  = (Return ranges, [EvReadFile sampleCachePath]).
Proof.
  intros ranges.
  apply (@cache_round_trip ipv4
           (sampleEnv (joinLines (map IPNet_String ranges), None) [] false)
           sampleCachePath false [] ranges).
  - intros r [<- | [<- | []]]; split; reflexivity.
  - reflexivity.
  - reflexivity.
Defined.

(** ** The order of the startup *)

Lemma emits_bind {A B : Type} (P : Event -> Prop) (m : M A) (k : A -> M B) :
  emits P m -> (forall a, emits P (k a)) -> emits P (bind m k).
Proof.
  intros Hm Hk tr. unfold bind. destruct (Hm tr) as (more & Hsnd & HP).
  destruct (m tr) as [[a| e | |] tr']; simpl in *; subst tr';
    try (now exists more).
  destruct (Hk a (tr ++ more)) as (more' & Hsnd' & HP').
  exists (more ++ more'). rewrite Hsnd', app_assoc. split; [reflexivity|].
  apply Forall_app. now split.
Qed.

Lemma emits_stop {A : Type} (P : Event -> Prop) (o : Outcome A) :
  emits P (fun tr => (o, tr)).
Proof. intros tr. exists []. simpl. now rewrite app_nil_r. Qed.

Lemma emits_fatal (P : Event -> Prop) (err : option Error) :
  emits P (fatal err).
Proof. destruct err; apply emits_stop. Qed.

Lemma emits_call {A : Type} (P : Event -> Prop) (answer : Trace -> A)
    (e : Event) :
  P e -> emits P (call answer e).
Proof. intros He tr. exists [e]. simpl. split; [reflexivity | now constructor]. Qed.

Ltac emits_step :=
  match goal with
  | |- emits _ (bind _ _) => apply emits_bind; [| intros ?]
  | |- emits _ (ret _) => apply emits_stop
  | |- emits _ (fatal _) => apply emits_fatal
  | |- emits _ (call _ _) => apply emits_call; exact I
  | |- emits _ (fun tr => (_, tr)) => apply emits_stop
  | |- context [if ?b then _ else _] => destruct b
  | |- context [match ?x with _ => _ end] => destruct x
  end.

Section Order.
Context {L : GoLib}.
Variable env : Env.

Lemma emits_write (h : Handle) (s : string) :
  emits beforeOutput (write env h s).
Proof.
  intros tr. eexists. simpl. split; [reflexivity|]. now repeat constructor.
Qed.

Lemma emits_writeCache (h : Handle) (rs : list IPNet) (i len : nat) :
  emits beforeOutput (writeCache env h i len rs).
Proof.
  revert i. induction rs as [|r rs IH]; intros i; simpl.
  - apply emits_stop.
  - repeat first [apply emits_write | apply IH | emits_step].
Qed.

Lemma emits_loadRanges (path : string) (skip : bool) :
  emits beforeOutput (loadRanges env path skip).
Proof.
  unfold loadRanges, createCache.
  repeat first [apply emits_writeCache | emits_step].
  intros tr. rewrite readCache_ranges. exists []. simpl.
  now rewrite app_nil_r.
Qed.

Lemma emits_getCacheFilePath : emits beforeOutput (getCacheFilePath env).
Proof. unfold getCacheFilePath. repeat emits_step. Qed.

End Order.

(** X3.  When the cache file is read without error, the flag [-s] changes
    nothing: the startup is the same with and without it, and the Range Set
    comes from the cache with no call to [cdn.LoadAll]. *)
Theorem skip_flag_idle_on_readable_cache {L : GoLib}
    (env : Env) (f : Flags) (home : string) (tr : Trace) :
  user_Current env = Success home ->
  snd (ioutil_ReadFile env tr (home ++ "/.config/cdnstrip.cache")%string)
  = None ->
  startup env (withSkip f true) tr = startup env (withSkip f false) tr
  /\ forall skip,
      loadRanges env (home ++ "/.config/cdnstrip.cache")%string skip tr
      = (Return (rangesOf
                   (strings.Split
                      (fst (ioutil_ReadFile env tr
                              (home ++ "/.config/cdnstrip.cache")%string))
                      strings.nl)),
         tr ++ [EvReadFile (home ++ "/.config/cdnstrip.cache")%string]).
Proof.
  intros Hhome Hread.
  assert (Hboth : forall skip,
             loadRanges env (home ++ "/.config/cdnstrip.cache")%string skip tr
             = (Return (rangesOf
                   (strings.Split
                      (fst (ioutil_ReadFile env tr
                              (home ++ "/.config/cdnstrip.cache")%string))
                      strings.nl)),
                tr ++ [EvReadFile (home ++ "/.config/cdnstrip.cache")%string])).
  { intros skip. apply loadRanges_from_cache. now rewrite Hread. }
  split; [|exact Hboth].
  destruct f as [t i o r s g].
  unfold startup, getCacheFilePath, withSkip. rewrite Hhome.
  cbn [thread_flag input out outputRaw_flag skipCache getIPv6].
  unfold bind, ret.
  destruct (String.eqb i ""); [reflexivity|].
  now rewrite !Hboth.
Qed.

Lemma skip_flag_idle_on_readable_cache_witness :
  let env := sampleEnv ("203.0.113.0/24"%string, None)
                       ["198.51.100.7"%string] false in
  startup env (withSkip (sampleFlags "-" false) true) []
  = startup env (withSkip (sampleFlags "-" false) false) [].
Proof.
  intros env.
  exact (proj1 (@skip_flag_idle_on_readable_cache ipv4 env
                  (sampleFlags "-" false) "/home/u"%string []
                  eq_refl eq_refl)).
Defined.

(** X4.  When the cache file cannot be read, [-s] is not given and
    [cdn.LoadAll] fails, [main] exits on that error having made two calls,
    the read of the cache and [cdn.LoadAll]: no cache file and no output
    file is created, and the input is not opened. *)
Theorem failed_acquisition_creates_nothing {L : GoLib}
    (env : Env) (f : Flags) (home msg : string) :
  let path := (home ++ "/.config/cdnstrip.cache")%string in
  user_Current env = Success home ->
  input f <> ""%string ->
  skipCache f = false ->
  snd (ioutil_ReadFile env [] path) <> None ->
  cdn_LoadAll env [EvReadFile path] = Failure msg ->
  startup env f [] = (Fatal (External msg), [EvReadFile path; EvLoadAll]).
Proof.
  intros path Hhome Hin Hskip Hread Hload.
  unfold startup, getCacheFilePath. rewrite Hhome, Hskip.
  unfold bind at 1. unfold ret at 1. cbv iota beta.
  unfold bind at 1.
  destruct (String.eqb_spec (input f) ""); [contradiction|].
  unfold ret at 1. cbv iota beta. unfold bind at 1.
  fold path. rewrite (loadRanges_acquire env path [] Hread).
  simpl app. now rewrite Hload.
Qed.

Lemma failed_acquisition_creates_nothing_witness :
  startup {| user_Current := Success "/home/u"%string;
             ioutil_ReadFile := fun _ _ => (""%string, Some "absent"%string);
             cdn_LoadAll := fun _ => Failure "network unreachable";
             os_OpenFile := fun _ _ => None;
             os_Create := fun _ _ => None;
             os_Open := fun _ _ => Failure "absent";
             os_Stdin := ["198.51.100.7"%string];
             sys_write := fun _ _ _ => None |}
          (sampleFlags "out.txt" false) []
  = (Fatal (External "network unreachable"),
     [EvReadFile sampleCachePath; EvLoadAll]).
Proof.
  apply (@failed_acquisition_creates_nothing ipv4 _ (sampleFlags "out.txt" false)
           "/home/u"%string "network unreachable"%string);
    first [reflexivity | discriminate].
Defined.

Lemma bind_cases {A B : Type} (m : M A) (k : A -> M B) (tr : Trace) :
  (exists a tr1, m tr = (Return a, tr1) /\ bind m k tr = k a tr1)
  \/ snd (bind m k tr) = snd (m tr).
Proof.
  unfold bind. destruct (m tr) as [[a| e | |] tr1]; simpl;
    [left; now exists a, tr1 | now right ..].
Qed.

(** X5.  The output file is created before the input is opened: whenever
    a startup with [-o name] gets as far as opening the input file, however
    it ends, the file [name] has been created. *)
Theorem output_created_before_input_opened {L : GoLib}
    (env : Env) (f : Flags) (p : string) :
  String.eqb (out f) "-" = false ->
  In (EvOpen p) (snd (startup env f [])) ->
  In (EvCreate (out f)) (snd (startup env f [])).
Proof.
  intros Hout. unfold startup.
  assert (Hnot : forall more, Forall beforeOutput more ->
                              In (EvOpen p) more -> False).
  { intros more HP Hin. rewrite Forall_forall in HP. exact (HP _ Hin). }
  destruct (emits_getCacheFilePath env []) as (m1 & H1 & P1).
  simpl in H1.
  match goal with
  | |- In _ (snd (bind ?m ?k ?t)) -> _ =>
      destruct (bind_cases m k t) as [(path & tr1 & Hm & ->) | ->]
  end; [| rewrite H1; intros Hin; now destruct (Hnot m1 P1 Hin)].
  rewrite Hm in H1. simpl in H1. subst tr1.
  match goal with
  | |- In _ (snd (bind ?m ?k ?t)) -> _ =>
      destruct (bind_cases m k t) as [(u & tr2 & Hm2 & ->) | ->]
  end.
  2:{ destruct (String.eqb (input f) ""); simpl;
        intros Hin; now destruct (Hnot m1 P1 Hin). }
  assert (Htr2 : tr2 = m1).
  { destruct (String.eqb (input f) ""); [discriminate|].
    now injection Hm2 as _ <-. }
  subst tr2.
  destruct (emits_loadRanges env path (skipCache f) m1) as (m2 & H2 & P2).
  assert (P12 : Forall beforeOutput (m1 ++ m2)) by (apply Forall_app; now split).
  match goal with
  | |- In _ (snd (bind ?m ?k ?t)) -> _ =>
      destruct (bind_cases m k t) as [(ranges & tr3 & Hm3 & ->) | ->]
  end; [| rewrite H2; intros Hin; now destruct (Hnot _ P12 Hin)].
  rewrite Hm3 in H2. simpl in H2. subst tr3. intros _.
  match goal with
  | |- In _ (snd (bind (openOutput env (out f)) ?k (m1 ++ m2))) =>
      assert (Hk : forall file, keeps (k file))
  end.
  { intros file. unfold openInput. repeat startup_step. }
  unfold bind at 1. unfold openOutput. rewrite Hout.
  unfold bind at 1. unfold call at 1. cbv iota beta.
  assert (Hc : In (EvCreate (out f)) ((m1 ++ m2) ++ [EvCreate (out f)]))
    by (apply in_or_app; right; now left).
  destruct (os_Create env (m1 ++ m2) (out f)) as [msg|]; simpl.
  - exact Hc.
  - apply (Hk None). exact Hc.
Qed.

Lemma output_created_before_input_opened_witness :
  let env := sampleEnv ("203.0.113.0/24"%string, None) [] false in
  let f := {| thread_flag := 1; input := "targets.txt"; out := "out.txt";
              outputRaw_flag := false; skipCache := false;
              getIPv6 := false |} in
  fst (startup env f []) = Fatal (External "no such file or directory")
  /\ In (EvCreate "out.txt") (snd (startup env f [])).
Proof.
  intros env f. split; [reflexivity|].
  apply (@output_created_before_input_opened ipv4 env f "targets.txt"%string).
  - reflexivity.
  - simpl. right. right. now left.
Defined.



(** ** The counters, the order of the output and the end of the pipeline *)

Section Counting.
Context {L : GoLib}.
Variable env : Env.
Variable ranges : list IPNet.
Variable file : File.
Variable raw : bool.

Lemma countVerdict_cons (v : Verdict) (t : E) (ts : list E) :
  countVerdict ranges v (t :: ts)
  = (if Verdict_eqb (verdict ranges t) v then 1 else 0)
    + countVerdict ranges v ts.
Proof.
  unfold countVerdict. simpl.
  now destruct (Verdict_eqb (verdict ranges t) v).
Qed.

Lemma countVerdict_perm (v : Verdict) (a b : list E) :
  Permutation a b -> countVerdict ranges v a = countVerdict ranges v b.
Proof.
  induction 1 as [|x a b _ IH|x y a|a b c _ IH1 _ IH2].
  - reflexivity.
  - now rewrite !countVerdict_cons, IH.
  - rewrite !countVerdict_cons. lia.
  - now rewrite IH1.
Qed.

Lemma countVerdict_le (v : Verdict) (ts : list E) :
  countVerdict ranges v ts <= length ts.
Proof. unfold countVerdict. apply filter_length_le. Qed.

(** The counters after the tasks [ts], as long as [int] holds them. *)
Lemma stripAll_counts (ts : list E) (g : Shared) :
  nonneg g -> (total g + Z.of_nat (length ts) < 2 ^ 63)%Z ->
  let g' := stripAll env ranges file raw ts g in
  (validIP g' = validIP g + Z.of_nat (countVerdict ranges NoMatch ts)
   /\ invalidIP g' = invalidIP g + Z.of_nat (countVerdict ranges Invalid ts)
   /\ cdnIP g'
      = cdnIP g + Z.of_nat (countVerdict ranges MatchesRange ts))%Z.
Proof.
  unfold stripAll. revert g.
  induction ts as [|t ts IH]; intros g Hnn Hlt; simpl fold_left.
  - unfold countVerdict; simpl. lia.
  - change (length (t :: ts)) with (S (length ts)) in Hlt.
    destruct (stripTask_total env ranges file raw t g Hnn ltac:(lia))
      as [Hnn' Htot].
    destruct (IH _ Hnn' ltac:(lia)) as (Hv & Hi & Hc).
    rewrite Hv, Hi, Hc, !countVerdict_cons.
    pose proof (stripTask_counters env ranges file raw t g) as Hcnt.
    destruct Hnn as (Hv0 & Hi0 & Hc0). unfold total in Hlt.
    destruct (verdict ranges t); injection Hcnt as -> -> ->; simpl;
      rewrite incr_small by lia; lia.
Qed.

Lemma linesOf_length (h : Handle) (ts : list E) :
  length (linesOf ranges raw h ts) = countVerdict ranges NoMatch ts.
Proof.
  induction ts as [|t ts IH]; [reflexivity|].
  rewrite countVerdict_cons. unfold linesOf in *. simpl.
  rewrite length_app, IH. f_equal.
  unfold sinkLine, verdict.
  destruct (ParseIP (IP t)) as [i|]; [|reflexivity].
  now destruct (Check ranges i).
Qed.

End Counting.

Lemma counters_at_end {L : GoLib}
    (env : Env) (ranges : list IPNet) (file : File) (raw : bool)
    (thread : nat) (tasks : list E) (tr : Trace)
    (ls : list Label) (p : Pipe) :
  (Z.of_nat (length tasks) < 2 ^ 63)%Z ->
  run env ranges file raw thread (initPipe thread tasks (initShared tr)) ls p ->
  completed p ->
  validIP (shared p) = Z.of_nat (countVerdict ranges NoMatch tasks)
  /\ invalidIP (shared p) = Z.of_nat (countVerdict ranges Invalid tasks)
  /\ cdnIP (shared p) = Z.of_nat (countVerdict ranges MatchesRange tasks).
Proof.
  intros Hlt Hrun Hdone.
  destruct (run_commits_all _ _ _ _ _ _ _ _ _ Hrun Hdone) as [Hperm ->].
  rewrite <- !(fun v => countVerdict_perm ranges v _ _ Hperm).
  rewrite <- (Permutation_length Hperm) in Hlt.
  destruct (stripAll_counts env ranges file raw (tasksOf ls) (initShared tr))
    as (Hv & Hi & Hc).
  - unfold nonneg; simpl; lia.
  - unfold total; simpl; lia.
  - simpl in Hv, Hi, Hc. now rewrite Hv, Hi, Hc.
Qed.

(** X7.  At the end of the pipeline each counter is the number of tasks
    with its verdict: [validIP] counts the tasks in no range, [invalidIP]
    those whose address does not parse and [cdnIP] those in a range,
    whatever the schedule, the number of workers, the output file and the
    output mode (for a number of tasks that [int] holds). *)
Theorem counters_count_verdicts {L : GoLib}
    (env : Env) (ranges : list IPNet) (file : File) (raw : bool)
    (thread : nat) (tasks : list E) (tr : Trace)
    (ls : list Label) (p : Pipe) :
  (Z.of_nat (length tasks) < 2 ^ 63)%Z ->
  run env ranges file raw thread (initPipe thread tasks (initShared tr)) ls p ->
  completed p ->
  validIP (shared p) = Z.of_nat (countVerdict ranges NoMatch tasks)
  /\ invalidIP (shared p) = Z.of_nat (countVerdict ranges Invalid tasks)
  /\ cdnIP (shared p) = Z.of_nat (countVerdict ranges MatchesRange tasks).
Proof.
  intros Hlt Hrun Hdone.
  destruct (run_commits_all _ _ _ _ _ _ _ _ _ Hrun Hdone) as [Hperm Hsh].
  rewrite Hsh.
  rewrite <- !(fun v => countVerdict_perm ranges v _ _ Hperm).
  rewrite <- (Permutation_length Hperm) in Hlt.
  destruct (stripAll_counts env ranges file raw (tasksOf ls) (initShared tr))
    as (Hv & Hi & Hc).
  - unfold nonneg; simpl; lia.
  - unfold total; simpl; lia.
  - simpl in Hv, Hi, Hc. rewrite Hv, Hi, Hc. repeat split; lia.
Qed.

Lemma counters_count_verdicts_witness :
  let env := sampleEnv ("203.0.113.0/24"%string, None) [] false in
  let tasks := loadInput false
                 ["203.0.113.5"; "198.51.100.7"; "192.168.0.0/30"]%string in
  exists p, completed p
            /\ validIP (shared p) = 5%Z
            /\ invalidIP (shared p) = 0%Z
            /\ cdnIP (shared p) = 1%Z.
Proof.
  intros env tasks.
  destruct (run_completes env sampleRanges (Some Stdout) true 3 tasks
              (initShared []) ltac:(lia)) as (ls & p & Hrun & Hdone & _).
  exists p. split; [exact Hdone|].
  exact (@counters_count_verdicts ipv4 env sampleRanges (Some Stdout) true 3
           tasks [] ls p ltac:(vm_compute; reflexivity) Hrun Hdone).
Defined.

Section SingleWorker.
Context {L : GoLib}.
Variable env : Env.
Variable ranges : list IPNet.
Variable file : File.
Variable raw : bool.
Variable thread : nat.

Lemma single_worker (ws1 ws2 : list Worker) (w : Worker) :
  length (ws1 ++ w :: ws2) = 1 -> ws1 = [] /\ ws2 = [].
Proof.
  rewrite length_app. simpl. intros H.
  destruct ws1; [destruct ws2; [auto | simpl in H; lia] | simpl in H; lia].
Qed.

(** With one worker, the tasks leave the state in their order. *)
Lemma step_todo_single (p p' : Pipe) (l : Label) :
  step env ranges file raw thread p l p' ->
  length (workers p) = 1 ->
  tasksOf [l] ++ todo p' = todo p /\ length (workers p') = 1.
Proof.
  destruct 1; unfold todo; simpl; intros Hlen.
  - split; [now rewrite <- app_assoc | exact Hlen].
  - split; [reflexivity | exact Hlen].
  - destruct (single_worker _ _ _ Hlen) as [-> ->]. now split.
  - destruct (single_worker _ _ _ Hlen) as [-> ->]. now split.
  - destruct (single_worker _ _ _ Hlen) as [-> ->]. now split.
Qed.

Lemma run_todo_single (p p' : Pipe) (ls : list Label) :
  run env ranges file raw thread p ls p' ->
  length (workers p) = 1 ->
  tasksOf ls ++ todo p' = todo p.
Proof.
  induction 1 as [|p l p' ls p'' Hstep Hrun IH]; intros Hlen; [reflexivity|].
  destruct (step_todo_single _ _ _ Hstep Hlen) as [Heq Hlen'].
  change (l :: ls) with ([l] ++ ls).
  now rewrite tasksOf_app, <- app_assoc, (IH Hlen').
Qed.

End SingleWorker.

(** X8.  With one worker, the default, the tasks are committed in the
    order in which [loadInput] sent them: the end of the pipeline is that
    of running the body of [strip] on them one after the other, and the
    lines written to an open file are those of the tasks in no range, in
    the order of the input. *)
Theorem one_worker_keeps_input_order {L : GoLib}
    (env : Env) (ranges : list IPNet) (file : File) (raw : bool)
    (tasks : list E) (g : Shared) (ls : list Label) (p : Pipe) :
  run env ranges file raw 1 (initPipe 1 tasks g) ls p ->
  completed p ->
  tasksOf ls = tasks
  /\ shared p = stripAll env ranges file raw tasks g
  /\ forall h, file = Some h ->
               writesOf (trace (shared p))
               = writesOf (trace g) ++ linesOf ranges raw h tasks.
Proof.
  intros Hrun Hdone.
  pose proof (run_todo_single _ _ _ _ _ _ _ _ Hrun eq_refl) as Heq.
  rewrite (completed_todo 1 p) in Heq;
    [| exact (run_wf _ _ _ _ _ _ _ _ Hrun (initPipe_wf _ tasks g))
     | exact Hdone].
  rewrite app_nil_r, initPipe_todo in Heq.
  pose proof (run_shared _ _ _ _ _ _ _ _ Hrun) as Hsh.
  rewrite Heq in Hsh. simpl in Hsh.
  split; [exact Heq | split; [exact Hsh|]].
  intros h Hfile. rewrite Hsh, stripAll_writes. now rewrite Hfile.
Qed.

Lemma one_worker_keeps_input_order_witness :
  let env := sampleEnv ("203.0.113.0/24"%string, None) [] false in
  let tasks := loadInput false
                 ["198.51.100.7"; "203.0.113.5"; "192.168.0.0/31"]%string in
  exists p,
    completed p
    /\ writesOf (trace (shared p))
       = [(Stdout, ("198.51.100.7" ++ newline)%string);
          (Stdout, ("192.168.0.0" ++ newline)%string);
          (Stdout, ("192.168.0.1" ++ newline)%string)].
Proof.
  intros env tasks.
  destruct (run_completes env sampleRanges (Some Stdout) false 1 tasks
              (initShared []) (le_n 1)) as (ls & p & Hrun & Hdone & _).
  exists p. split; [exact Hdone|].
  destruct (@one_worker_keeps_input_order ipv4 env sampleRanges (Some Stdout)
              false tasks (initShared []) ls p Hrun Hdone) as (_ & _ & Hw).
  rewrite (Hw Stdout eq_refl). reflexivity.
Defined.

(** X9.  The pipeline can run to its end exactly when there is a worker or
    nothing to send: with [-t 0] and a task to send, [loadInput] blocks on
    the channel for ever and [main] never returns. *)
Theorem pipeline_ends_iff_worker_or_no_task {L : GoLib}
    (env : Env) (ranges : list IPNet) (file : File) (raw : bool)
    (thread : nat) (tasks : list E) (g : Shared) :
  (exists ls p,
      run env ranges file raw thread (initPipe thread tasks g) ls p
      /\ completed p)
  <-> (1 <= thread \/ tasks = []).
Proof.
  split.
  - intros (ls & p & Hrun & Hdone).
    destruct thread as [|n]; [|left; lia]. right.
    destruct tasks as [|t tasks]; [reflexivity|]. exfalso.
    unfold initPipe in Hrun. simpl in Hrun.
    inversion Hrun as [q Hq | q l q' ls' q'' Hstep Hrest]; subst.
    + destruct Hdone as (Hpend & _). discriminate Hpend.
    + inversion Hstep; subst; simpl in *; try lia;
        match goal with
        | H : _ ++ _ :: _ = [] |- _ =>
            exact (app_cons_not_nil _ _ _ (eq_sym H))
        | H : [] = _ ++ _ :: _ |- _ => exact (app_cons_not_nil _ _ _ H)
        end.
  - intros [Ht | ->].
    + destruct (run_completes env ranges file raw thread tasks g Ht)
        as (ls & p & Hrun & Hdone & _).
      now exists ls, p.
    + destruct thread as [|n].
      * exists [Close], (mkPipe [] [] true [] g). split.
        -- econstructor; [apply step_close | constructor].
        -- unfold completed; simpl. repeat split. constructor.
      * destruct (run_completes env ranges file raw (S n) [] g ltac:(lia))
          as (ls & p & Hrun & Hdone & _).
        now exists ls, p.
Qed.

(** X10.  At every moment of the pipeline the writes and [validIP] agree:
    on an open file, the number of write calls made since the workers
    started is the value of [validIP] (for a number of tasks that [int]
    holds). *)
Theorem writes_agree_with_validIP {L : GoLib}
    (env : Env) (ranges : list IPNet) (h : Handle) (raw : bool)
    (thread : nat) (tasks : list E) (tr : Trace)
    (ls : list Label) (p : Pipe) :
  (Z.of_nat (length tasks) < 2 ^ 63)%Z ->
  run env ranges (Some h) raw thread
      (initPipe thread tasks (initShared tr)) ls p ->
  (Z.of_nat (length (writesOf (trace (shared p))))
   = Z.of_nat (length (writesOf tr)) + validIP (shared p))%Z.
Proof.
  intros Hlt Hrun.
  pose proof (run_todo _ _ _ _ _ _ _ _ Hrun) as Hperm.
  rewrite initPipe_todo in Hperm.
  apply Permutation_length in Hperm. rewrite length_app in Hperm.
  rewrite (run_shared _ _ _ _ _ _ _ _ Hrun). cbn [shared initPipe].
  destruct (stripAll_counts env ranges (Some h) raw (tasksOf ls)
              (initShared tr)) as (Hv & _).
  - unfold nonneg; simpl; lia.
  - unfold total; simpl; lia.
  - rewrite Hv, stripAll_writes, length_app, linesOf_length. simpl. lia.
Qed.

Lemma writes_agree_with_validIP_witness :
  let env := sampleEnv ("203.0.113.0/24"%string, None) [] false in
  let tasks := loadInput false ["198.51.100.7"; "203.0.113.5"]%string in
  exists p,
    (Z.of_nat (length (writesOf (trace (shared p)))) = validIP (shared p))%Z.
Proof.
  intros env tasks.
  destruct (run_completes env sampleRanges (Some Stdout) false 2 tasks
              (initShared []) ltac:(lia)) as (ls & p & Hrun & _ & _).
  exists p.
  exact (@writes_agree_with_validIP ipv4 env sampleRanges Stdout false 2
           tasks [] ls p ltac:(vm_compute; reflexivity) Hrun).
Defined.

(** ** More on the Input Normalizer *)

(** X11.  Every task that a scanned line sends carries, as [Raw], the line
    with its surrounding white space trimmed, which is never empty: in raw
    mode the output is made of trimmed input lines. *)
Theorem tasks_carry_trimmed_line {L : GoLib}
    (getIPv6 : bool) (lines : list string) (t : E) :
  In t (loadInput getIPv6 lines) ->
  exists text,
    In text lines /\ Raw t = strings.TrimSpace text /\ Raw t <> ""%string.
Proof.
  unfold loadInput. rewrite in_flat_map. intros (text & Hin & Ht).
  exists text. split; [exact Hin|].
  unfold loadLine in Ht.
  destruct (String.eqb_spec (strings.TrimSpace text) "") as [|Hne];
    [contradiction|].
  unfold sendTasks in Ht. simpl Raw in Ht.
  destruct (negb getIPv6
            && strings.Contains (workingToken (strings.TrimSpace text)) ":");
    [contradiction|].
  destruct (ParseIP (workingToken (strings.TrimSpace text))) as [ip|].
  - destruct Ht as [<- | []]. simpl. now split.
  - destruct (ExpandCIDR (workingToken (strings.TrimSpace text))) as [cidr|];
      [|contradiction].
    apply in_map_iff in Ht as (ip & <- & _). simpl. now split.
Qed.

Lemma tasks_carry_trimmed_line_witness :
  exists text,
    In text ["  http://203.0.113.5/x  "; "10.0.0.0/31 "]%string
    /\ "10.0.0.0/31"%string = strings.TrimSpace text
    /\ "10.0.0.0/31"%string <> ""%string.
Proof.
  apply (@tasks_carry_trimmed_line ipv4 false
           ["  http://203.0.113.5/x  "; "10.0.0.0/31 "]%string
           {| Raw := "10.0.0.0/31"; IP := "10.0.0.1" |}).
  simpl. right. right. now left.
Defined.

(** X12.  A line whose working token passes the IPv6 filter and is no
    literal address is expanded as a block: one task for each address that
    [cdn.ExpandCIDR] returns, in its order, all with the trimmed line as
    [Raw]; when the token is no block either, the line sends nothing. *)
Theorem block_line_sends_its_addresses {L : GoLib}
    (getIPv6 : bool) (text : string) :
  let line := strings.TrimSpace text in
  line <> ""%string ->
  getIPv6 = true \/ strings.Contains (workingToken line) ":" = false ->
  ParseIP (workingToken line) = None ->
  (forall cidr,
      ExpandCIDR (workingToken line) = Some cidr ->
      loadLine getIPv6 text
      = map (fun ip => {| Raw := line; IP := ip |}) cidr)
  /\ (ExpandCIDR (workingToken line) = None -> loadLine getIPv6 text = []).
Proof.
  intros line Hne Hfilter Hip. subst line.
  rewrite (loadLine_nonempty _ _ Hne). unfold sendTasks. rewrite Hip.
  assert (Hf : negb getIPv6
               && strings.Contains (workingToken (strings.TrimSpace text)) ":"
               = false).
  { destruct Hfilter as [-> | ->]; [reflexivity | apply andb_false_r]. }
  rewrite Hf. split.
  - intros cidr ->. reflexivity.
  - intros ->. reflexivity.
Qed.

Lemma block_line_sends_its_addresses_witness :
  loadLine false " 192.168.0.0/30 "
  = [ {| Raw := "192.168.0.0/30"; IP := "192.168.0.0" |};
      {| Raw := "192.168.0.0/30"; IP := "192.168.0.1" |};
      {| Raw := "192.168.0.0/30"; IP := "192.168.0.2" |};
      {| Raw := "192.168.0.0/30"; IP := "192.168.0.3" |} ]
  /\ loadLine false "example.com" = [].
Proof.
  split.
  - apply (proj1 (@block_line_sends_its_addresses ipv4 false
                    " 192.168.0.0/30 " ltac:(discriminate)
                    (or_intror eq_refl) eq_refl)
             ["192.168.0.0"; "192.168.0.1"; "192.168.0.2";
              "192.168.0.3"]%string eq_refl).
  - apply (proj2 (@block_line_sends_its_addresses ipv4 false
                    "example.com" ltac:(discriminate)
                    (or_intror eq_refl) eq_refl) eq_refl).
Defined.

(** X13.  Without [-k], [loadInput] sends what it sends with [-k] on the
    input from which the lines whose working token contains a colon are
    removed: the flag only adds tasks, and changes none. *)
Theorem ipv6_flag_only_adds {L : GoLib} (lines : list string) :
  loadInput false lines
  = loadInput true
      (filter (fun text =>
                 negb (strings.Contains
                         (workingToken (strings.TrimSpace text)) ":"))
              lines).
Proof.
  unfold loadInput.
  induction lines as [|text lines IH]; [reflexivity|].
  simpl flat_map. rewrite IH. clear IH.
  assert (Hline : loadLine false text
                  = if strings.Contains
                         (workingToken (strings.TrimSpace text)) ":"
                    then [] else loadLine true text).
  { unfold loadLine.
    destruct (String.eqb (strings.TrimSpace text) "");
      [now destruct (strings.Contains _ _)|].
    unfold sendTasks. simpl negb. cbv iota.
    now destruct (strings.Contains (workingToken (strings.TrimSpace text)) ":"). }
  rewrite Hline. simpl filter.
  now destruct (strings.Contains (workingToken (strings.TrimSpace text)) ":").
Qed.

(** ** The older program *)

(** X14.  On a line that does not start with [http], and that passes the
    IPv6 filter, the newer [loadInput] sends tasks whose addresses are the
    strings that the older [loadInput] sends, in the same order. *)
Theorem loadInput_extends_older {L : GoLib} (getIPv6 : bool) (text : string) :
  strings.HasPrefix (strings.TrimSpace text) "http" = false ->
  getIPv6 = true \/ strings.Contains (strings.TrimSpace text) ":" = false ->
  map IP (loadLine getIPv6 text) = Legacy.loadLine text.
Proof.
  intros Hhttp Hfilter. unfold loadLine, Legacy.loadLine.
  destruct (String.eqb (strings.TrimSpace text) ""); [reflexivity|].
  unfold workingToken. rewrite Hhttp. unfold sendTasks.
  assert (Hf : negb getIPv6 && strings.Contains (strings.TrimSpace text) ":"
               = false).
  { destruct Hfilter as [-> | ->]; [reflexivity | apply andb_false_r]. }
  rewrite Hf.
  destruct (ParseIP (strings.TrimSpace text)) as [ip|]; [reflexivity|].
  destruct (ExpandCIDR (strings.TrimSpace text)) as [cidr|]; [|reflexivity].
  rewrite map_map. simpl. apply map_id.
Qed.

Lemma loadInput_extends_older_witness :
  map IP (loadLine false " 192.168.0.0/31 ")
  = ["192.168.0.0"; "192.168.0.1"]%string
  /\ Legacy.loadLine " 192.168.0.0/31 "
     = ["192.168.0.0"; "192.168.0.1"]%string.
Proof.
  assert (H := @loadInput_extends_older ipv4 false " 192.168.0.0/31 "
                 eq_refl (or_intror eq_refl)).
  split; [rewrite H|]; reflexivity.
Defined.

(** X15.  The body of the older [strip] on an address is the body of the
    newer one in canonical mode on a task with that address, whatever the
    [Raw] of the task: the counters and the calls are the same. *)
Theorem strip_extends_older {L : GoLib}
    (env : Env) (ranges : list IPNet) (file : File) (raw ip : string)
    (g : Shared) :
  stripTask env ranges file false {| Raw := raw; IP := ip |} g
  = Legacy.strip env ranges file ip g.
Proof.
  unfold stripTask, Legacy.strip. simpl IP.
  destruct (ParseIP ip) as [i|]; [|reflexivity].
  destruct (Check ranges i); reflexivity.
Qed.

(** X16.  In the older [main] the file given to the workers is the file
    that [-o] names, created by the startup; so a worker that finds an
    address in no range writes its line to that file. *)
Theorem older_main_writes_to_named_file {L : GoLib}
    (env : Env) (f : LegacyFlags) (su : Setup) (tr0 tr : Trace) :
  Legacy.startup env f tr0 = (Return su, tr) ->
  outFile su = Some (FileAt (legacy_out f))
  /\ In (EvCreate (legacy_out f)) tr
  /\ forall ip i g,
      ParseIP ip = Some i ->
      Check (cdnRanges su) i = false ->
      writesOf (trace (Legacy.strip env (cdnRanges su) (outFile su) ip g))
      = writesOf (trace g)
        ++ [(FileAt (legacy_out f), (IP_String i ++ newline)%string)].
Proof.
  intros Hs. unfold Legacy.startup in Hs.
  apply bind_Return in Hs as (path & tr1 & _ & Hs).
  apply bind_Return in Hs as (u2 & tr2 & _ & Hs).
  apply bind_Return in Hs as (ranges & tr3 & _ & Hs).
  apply bind_Return in Hs as (file & tr4 & Hopen & Hs).
  apply bind_Return in Hs as (u5 & tr5 & Hpanic & Hs).
  apply bind_Return in Hs as (ls & tr6 & Hin & Hs).
  injection Hs as Hsu Htr. subst su tr. simpl.
  unfold Legacy.openOutput in Hopen.
  apply bind_Return in Hopen as (err & tr3' & Hcall & Hopen).
  apply bind_Return in Hopen as (u & tr3'' & Hfat & Hopen).
  injection Hopen as Hfile Htr4. subst file tr4.
  injection Hcall as _ Htr3'. subst tr3'.
  assert (Htr3'' : tr3'' = tr3 ++ [EvCreate (legacy_out f)]).
  { destruct (option_map External err); [discriminate|].
    now injection Hfat as _ <-. }
  subst tr3''.
  assert (H5 : In (EvCreate (legacy_out f)) tr5).
  { destruct (wrapInt (legacy_thread f * 2) <? 0)%Z; [discriminate|].
    inversion Hpanic; subst. apply in_or_app. right. now left. }
  split; [reflexivity | split].
  - pose proof (keeps_openInput env (legacy_input f) tr5 _ H5) as H6.
    now rewrite Hin in H6.
  - intros ip i g Hip Hchk. unfold Legacy.strip.
    rewrite Hip, Hchk. simpl. rewrite writesOf_app. reflexivity.
Qed.

Lemma older_main_writes_to_named_file_witness :
  let env := sampleEnv ("203.0.113.0/24"%string, None)
                       ["198.51.100.7"%string] false in
  let f := {| legacy_thread := 1; legacy_input := "-";
              legacy_out := "filtered.txt"; legacy_skipCache := false |} in
  writesOf (trace (Legacy.strip env sampleRanges (Some (FileAt "filtered.txt"))
                                "198.51.100.7" (initShared [])))
  = [(FileAt "filtered.txt", ("198.51.100.7" ++ newline)%string)].
Proof.
  intros env f.
  destruct (@older_main_writes_to_named_file ipv4 env f
              (@mkSetup ipv4 sampleRanges (Some (FileAt "filtered.txt"))
                        ["198.51.100.7"%string])
              [] [EvReadFile sampleCachePath; EvCreate "filtered.txt"]
              eq_refl) as (_ & _ & Hw).
  exact (Hw "198.51.100.7"%string 3325256711%N (initShared [])
            eq_refl eq_refl).
Defined.

(** ** The runs of [main] and the output file *)

(** X17.  With [-o name], for every input, thread count and schedule, when
    [main] returns the workers have made no call: the trace is that of the
    startup, which created the file, followed by the close of the file.
    Nothing is ever written to [name]. *)
Theorem named_file_gets_no_line {L : GoLib}
    (env : Env) (f : Flags) (g : Shared) :
  String.eqb (out f) "-" = false ->
  mainReturns env f g ->
  exists su tr,
    startup env f [] = (Return su, tr)
    /\ In (EvCreate (out f)) tr
    /\ trace g = tr ++ [EvClose (FileAt (out f))].
Proof.
  intros Hout (su & tr & ls & p & Hs & Hrun & Hdone & ->).
  destruct (startup_named_output env f su [] tr Hout Hs) as [Hnil Hin].
  exists su, tr. split; [exact Hs | split; [exact Hin|]].
  unfold finish. rewrite Hout. simpl trace.
  now rewrite (run_nil_file _ _ _ _ _ _ _ _ Hnil Hrun).
Qed.

Lemma named_file_gets_no_line_witness :
  let env := sampleEnv ("203.0.113.0/24"%string, None)
                       ["198.51.100.7"; "192.168.0.0/30"]%string false in
  let f := sampleFlags "out.txt" false in
  exists g,
    validIP g = 5%Z
    /\ exists su tr,
        startup env f [] = (Return su, tr)
        /\ In (EvCreate "out.txt") tr
        /\ trace g = tr ++ [EvClose (FileAt "out.txt")].
Proof.
  intros env f.
  pose (su := @mkSetup ipv4 sampleRanges None
                       ["198.51.100.7"; "192.168.0.0/30"]%string).
  pose (tr := [EvReadFile sampleCachePath; EvCreate "out.txt"]).
  destruct (run_completes env sampleRanges None false 1
              (loadInput false (lines su)) (initShared tr) (le_n 1))
    as (ls & p & Hrun & Hdone & Hsh).
  exists (finish f (shared p)). split.
  - rewrite Hsh. reflexivity.
  - apply (@named_file_gets_no_line ipv4 env f (finish f (shared p)) eq_refl).
    exists su, tr, ls, p.
    split; [reflexivity | split; [exact Hrun | split; [exact Hdone|]]].
    reflexivity.
Defined.

(** X18.  With the default [-o -], when [main] returns, the write calls that
    the workers made are the lines of the tasks whose address is in no
    range, one call for each such task, in some order, all on standard
    output. *)
Theorem stdout_gets_each_line_once {L : GoLib}
    (env : Env) (f : Flags) (g : Shared) :
  out f = "-"%string ->
  mainReturns env f g ->
  exists su tr added,
    startup env f [] = (Return su, tr)
    /\ writesOf (trace g) = writesOf tr ++ added
    /\ Permutation added
         (linesOf (cdnRanges su) (outputRaw_flag f) Stdout
                  (loadInput (getIPv6 f) (lines su))).
Proof.
  intros Hout (su & tr & ls & p & Hs & Hrun & Hdone & ->).
  unfold finish. rewrite Hout. simpl String.eqb. cbv iota.
  assert (Hfile : outFile su = Some Stdout).
  { pose proof Hs as Hs'. unfold startup in Hs'.
    apply bind_Return in Hs' as (path & tr1 & _ & Hs').
    apply bind_Return in Hs' as (u2 & tr2 & _ & Hs').
    apply bind_Return in Hs' as (ranges & tr3 & _ & Hs').
    apply bind_Return in Hs' as (file & tr4 & Hopen & Hs').
    apply bind_Return in Hs' as (u5 & tr5 & _ & Hs').
    apply bind_Return in Hs' as (ls' & tr6 & _ & Hs').
    injection Hs' as Hsu Htr. subst su tr. simpl.
    unfold openOutput in Hopen. rewrite Hout in Hopen.
    now injection Hopen as <- _. }
  destruct (run_commits_all _ _ _ _ _ _ _ _ _ Hrun Hdone) as [Hperm Hsh].
  exists su, tr, (linesOf (cdnRanges su) (outputRaw_flag f) Stdout
                          (tasksOf ls)).
  split; [exact Hs | split].
  - rewrite Hsh, stripAll_writes. now rewrite Hfile.
  - unfold linesOf. now apply Permutation_flat_map.
Qed.

Lemma stdout_gets_each_line_once_witness :
  let env := sampleEnv ("203.0.113.0/24"%string, None)
                       ["198.51.100.7"; "203.0.113.5"]%string false in
  let f := sampleFlags "-" false in
  exists g su tr added,
    startup env f [] = (Return su, tr)
    /\ writesOf (trace g) = writesOf tr ++ added
    /\ Permutation added [(Stdout, ("198.51.100.7" ++ newline)%string)].
Proof.
  intros env f.
  pose (su := @mkSetup ipv4 sampleRanges (Some Stdout)
                       ["198.51.100.7"; "203.0.113.5"]%string).
  pose (tr := [EvReadFile sampleCachePath]).
  destruct (run_completes env sampleRanges (Some Stdout) false 1
              (loadInput false (lines su)) (initShared tr) (le_n 1))
    as (ls & p & Hrun & Hdone & Hsh).
  assert (Hmain : mainReturns env f (finish f (shared p))).
  { exists su, tr, ls, p.
    split; [reflexivity | split; [exact Hrun | split; [exact Hdone|]]].
    reflexivity. }
  destruct (@stdout_gets_each_line_once ipv4 env f (finish f (shared p))
              eq_refl Hmain) as (su' & tr' & added & Hs & Hw & Hperm).
  assert (Hs0 : startup env f [] = (Return su, tr)) by reflexivity.
  rewrite Hs0 in Hs. injection Hs as <- <-.
  exists (finish f (shared p)), su, tr, added.
  split; [reflexivity | split; [exact Hw | exact Hperm]].
Defined.

(** ** The status line *)

Lemma append_inj_l (p a b : string) : (p ++ a = p ++ b)%string -> a = b.
Proof.
  induction p as [|c p IH]; simpl; intros H; [exact H|].
  injection H as H. exact (IH H).
Qed.

Lemma string_of_uint_no_space (u : Decimal.uint) :
  strings.Contains (NilEmpty.string_of_uint u) " " = false.
Proof.
  induction u; simpl NilEmpty.string_of_uint;
    [reflexivity | rewrite Contains_cons, IHu; reflexivity ..].
Qed.

Lemma Itoa_no_space (z : Z) : strings.Contains (Itoa z) " " = false.
Proof.
  unfold Itoa. destruct (Z.to_int z) as [u|u]; simpl NilEmpty.string_of_int.
  - apply string_of_uint_no_space.
  - rewrite Contains_cons, string_of_uint_no_space. reflexivity.
Qed.

Lemma Itoa_inj (z z' : Z) : Itoa z = Itoa z' -> z = z'.
Proof.
  unfold Itoa. intros H. apply DecimalZ.to_int_inj.
  apply (f_equal NilEmpty.int_of_string) in H.
  rewrite !NilEmpty.isi in H. now injection H.
Qed.

Lemma split_at_space (a a' r r' : string) :
  strings.Contains a " " = false ->
  strings.Contains a' " " = false ->
  (a ++ String " " r = a' ++ String " " r')%string ->
  a = a' /\ r = r'.
Proof.
  revert a'. induction a as [|c a IH]; intros [|c' a'] Ha Ha' H; simpl in H.
  - injection H as H. now split.
  - injection H as Hc _. subst c'. rewrite Contains_cons in Ha'.
    discriminate Ha'.
  - injection H as Hc _. subst c. rewrite Contains_cons in Ha.
    discriminate Ha.
  - injection H as Hc H. subst c'.
    rewrite Contains_cons in Ha, Ha'.
    apply orb_false_iff in Ha as [_ Ha]. apply orb_false_iff in Ha' as [_ Ha'].
    destruct (IH a' Ha Ha' H) as [-> ->]. now split.
Qed.

(** X19.  The status line that [updateSpinnerStats] builds shows the three
    counters without ambiguity: two states with the same line have the same
    [validIP], [invalidIP] and [cdnIP]. *)
Theorem status_line_determines_counters (g g' : Shared) :
  updateSpinnerStats g = updateSpinnerStats g' ->
  validIP g = validIP g' /\ invalidIP g = invalidIP g' /\ cdnIP g = cdnIP g'.
Proof.
  unfold updateSpinnerStats. intros H.
  apply append_inj_l in H.
  change (" | INVALID: " ++ ?x)%string
    with (String " " ("| INVALID: " ++ x))%string in H.
  apply split_at_space in H as [Hv H]; try apply Itoa_no_space.
  apply append_inj_l in H.
  change (" | CDN: " ++ ?x)%string
    with (String " " ("| CDN: " ++ x))%string in H.
  apply split_at_space in H as [Hi H]; try apply Itoa_no_space.
  apply append_inj_l in H.
  change (" ]")%string with (String " " "]")%string in H.
  apply split_at_space in H as [Hc _]; try apply Itoa_no_space.
  repeat split; now apply Itoa_inj.
Qed.

Lemma status_line_determines_counters_witness :
  let g := {| validIP := 12; invalidIP := 0; cdnIP := 345; trace := [] |} in
  let g' := {| validIP := 12; invalidIP := 0; cdnIP := 345;
               trace := [EvLoadAll] |} in
  updateSpinnerStats g = "  [ VALID: 12 | INVALID: 0 | CDN: 345 ]"%string
  /\ validIP g = validIP g'.
Proof.
  intros g g'. split; [reflexivity|].
  exact (proj1 (status_line_determines_counters g g' eq_refl)).
Defined.

(** ** What the workers never see, and what the channel holds *)

(** X20.  The counter [invalidIP] stays at zero when the library reads back
    what it prints, on the lines of the input: if the string of every
    address that a line parses to, and every string that a block of the
    input expands to, parses as an address, then no task of [loadInput] has
    the verdict [Invalid], and at the end of the pipeline [invalidIP] is 0. *)
Theorem no_task_is_invalid {L : GoLib}
    (env : Env) (ranges : list IPNet) (file : File) (raw : bool)
    (thread : nat) (getIPv6 : bool) (lines : list string) (tr : Trace)
    (ls : list Label) (p : Pipe) :
  let token := fun text => workingToken (strings.TrimSpace text) in
  (forall text ip,
      In text lines -> ParseIP (token text) = Some ip ->
      ParseIP (IP_String ip) <> None) ->
  (forall text cidr a,
      In text lines -> ExpandCIDR (token text) = Some cidr -> In a cidr ->
      ParseIP a <> None) ->
  (Z.of_nat (length (loadInput getIPv6 lines)) < 2 ^ 63)%Z ->
  run env ranges file raw thread
      (initPipe thread (loadInput getIPv6 lines) (initShared tr)) ls p ->
  completed p ->
  (forall t, In t (loadInput getIPv6 lines) -> verdict ranges t <> Invalid)
  /\ invalidIP (shared p) = 0%Z.
Proof.
  intros token Hip Hcidr Hlt Hrun Hdone.
  assert (Hvalid : forall t, In t (loadInput getIPv6 lines) ->
                             verdict ranges t <> Invalid).
  { intros t Hin. unfold loadInput in Hin.
    apply in_flat_map in Hin as (text & Htext & Ht).
    unfold loadLine in Ht.
    destruct (String.eqb (strings.TrimSpace text) ""); [contradiction|].
    unfold sendTasks in Ht. fold (token text) in Ht.
    destruct (negb getIPv6 && strings.Contains (token text) ":");
      [contradiction|].
    unfold verdict.
    destruct (ParseIP (token text)) as [ip|] eqn:Hp.
    - destruct Ht as [<- | []]. simpl.
      specialize (Hip text ip Htext Hp).
      destruct (ParseIP (IP_String ip)) as [i|]; [|contradiction].
      destruct (Check ranges i); discriminate.
    - destruct (ExpandCIDR (token text)) as [cidr|] eqn:He; [|contradiction].
      apply in_map_iff in Ht as (a & <- & Ha). simpl.
      specialize (Hcidr text cidr a Htext He Ha).
      destruct (ParseIP a) as [i|]; [|contradiction].
      destruct (Check ranges i); discriminate. }
  split; [exact Hvalid|].
  destruct (counters_at_end env ranges file raw thread
              (loadInput getIPv6 lines) tr ls p Hlt Hrun Hdone) as (_ & -> & _).
  assert (Hzero : forall ts,
             (forall t, In t ts -> verdict ranges t <> Invalid) ->
             countVerdict ranges Invalid ts = 0).
  { induction ts as [|t ts IH]; intros Hall; [reflexivity|].
    rewrite countVerdict_cons, IH by (intros; apply Hall; now right).
    specialize (Hall t (or_introl eq_refl)).
    destruct (verdict ranges t); simpl; congruence. }
  now rewrite Hzero.
Qed.

Lemma no_task_is_invalid_witness :
  let env := sampleEnv ("203.0.113.0/24"%string, None) [] false in
  let lines := ["198.51.100.7"; "192.168.0.0/31"]%string in
  exists p, completed p /\ invalidIP (shared p) = 0%Z.
Proof.
  intros env lines.
  destruct (run_completes env sampleRanges (Some Stdout) false 2
              (loadInput false lines) (initShared []) ltac:(lia))
    as (ls & p & Hrun & Hdone & _).
  exists p. split; [exact Hdone|].
  refine (proj2 (@no_task_is_invalid ipv4 env sampleRanges (Some Stdout) false
                   2 false lines [] ls p _ _ _ Hrun Hdone)).
  - intros text ip [<- | [<- | []]] Hp; vm_compute in Hp;
      [injection Hp as <-; discriminate | discriminate].
  - intros text cidr a [<- | [<- | []]] He; vm_compute in He;
      [discriminate|].
    injection He as <-. intros [<- | [<- | []]]; discriminate.
  - vm_compute. reflexivity.
Defined.

(** X21.  The channel gives back-pressure: in every state that the
    pipeline reaches, the channel holds at most [-t] tasks and the workers
    hold at most [-t] more, so at most twice [-t] tasks are between
    [loadInput] and the counters; and once the channel is closed nothing is
    left to send. *)
Theorem channel_holds_at_most_thread {L : GoLib}
    (env : Env) (ranges : list IPNet) (file : File) (raw : bool)
    (thread : nat) (tasks : list E) (g : Shared)
    (ls : list Label) (p : Pipe) :
  run env ranges file raw thread (initPipe thread tasks g) ls p ->
  length (queue p) <= thread
  /\ length (holdingOf (workers p)) <= thread
  /\ (closed p = true -> pending p = []).
Proof.
  intros Hrun.
  destruct (run_wf _ _ _ _ _ _ _ _ Hrun (initPipe_wf thread tasks g))
    as (Hlen & Hq & Hcl & _).
  split; [exact Hq | split; [|exact Hcl]].
  rewrite <- Hlen. clear.
  induction (workers p) as [|w ws IH]; simpl; [lia|].
  destruct w; simpl; lia.
Qed.

Lemma channel_holds_at_most_thread_witness :
  let env := sampleEnv ("203.0.113.0/24"%string, None) [] false in
  let t1 := {| Raw := "198.51.100.7"; IP := "198.51.100.7" |} in
  let t2 := {| Raw := "203.0.113.5"; IP := "203.0.113.5" |} in
  let p := mkPipe [t2] [t1] false [Waiting] (initShared []) in
  length (queue p) <= 1.
Proof.
  intros env t1 t2 p.
  refine (proj1 (@channel_holds_at_most_thread ipv4 env sampleRanges
                   (Some Stdout) false 1 [t1; t2] (initShared [])
                   [Send t1] p _)).
  econstructor; [apply step_send; simpl; lia | constructor].
Defined.
